(** * Terminal output interpreter of build_safari (utils/terminal.py)

    A shallow embedding of [ANSI_TO_RICH], the two regular expressions,
    [ansi_to_rich], [_parse_sgr], [_escape_rich_markup] and the
    [OutputProcessor] class, followed by the properties checked on them.

    Python strings are modelled by [string]; a character is an [ascii],
    read as one of the first 256 code points.  Exceptions are explicit: a
    computation returns [Ret v], [Raise e], or [OutOfFuel] when a [while]
    loop was given too few iterations. *)

From Stdlib Require Import ZArith Lia List Bool Arith Ascii String DecimalString.
Import ListNotations.
Open Scope string_scope.

(** ** The Python fragment the module relies on *)

Module Py.

Inductive exn : Type := ValueError | IndexError | KeyError | AttributeError.

Inductive res (A : Type) : Type :=
| Ret (a : A)
| Raise (e : exn)
| OutOfFuel.
Arguments Ret {A} a.
Arguments Raise {A} e.
Arguments OutOfFuel {A}.

Definition bind {A B : Type} (m : res A) (f : A -> res B) : res B :=
  match m with
  | Ret a => f a
  | Raise e => Raise e
  | OutOfFuel => OutOfFuel
  end.

(** [try: body / except ValueError: handler] *)
Definition try_except_ValueError {A : Type} (body handler : res A) : res A :=
  match body with
  | Raise ValueError => handler
  | r => r
  end.

Definition ESC : ascii := "027"%char.
Definition BEL : ascii := "007"%char.
Definition BS : ascii := "008"%char.
Definition LF : ascii := "010"%char.
Definition CR : ascii := "013"%char.

Definition len (s : string) : nat := String.length s.

(** [s[i]] for [0 <= i] *)
Definition getitem (s : string) (i : nat) : res ascii :=
  match String.get i s with
  | Some c => Ret c
  | None => Raise IndexError
  end.

(** [l[i]] on a list, for [0 <= i] *)
Definition lgetitem {A : Type} (l : list A) (i : nat) : res A :=
  match nth_error l i with
  | Some a => Ret a
  | None => Raise IndexError
  end.

(** The list after [l.append(x)] *)
Definition list_append {A : Type} (l : list A) (x : A) : list A := (l ++ [x])%list.

(** [s[a:b]] for [0 <= a] and [0 <= b] *)
Definition slice (s : string) (a b : nat) : string := substring a (b - a) s.

(** [s[a:]] *)
Definition slice_from (s : string) (a : nat) : string := slice s a (len s).

(** [s[:-1]] *)
Definition drop_last (s : string) : string := slice s 0 (len s - 1).

(** [s.startswith(p)] *)
Definition startswith (p s : string) : bool := String.prefix p s.

(** [s.split(sep)] for a one-character separator *)
Fixpoint split (sep : ascii) (s : string) : list string :=
  match s with
  | EmptyString => [EmptyString]
  | String c s' =>
      if Ascii.eqb c sep then EmptyString :: split sep s'
      else match split sep s' with
           | p :: ps => String c p :: ps
           | [] => [String c EmptyString]
           end
  end.

(** [sep.join(l)] *)
Fixpoint join (sep : string) (l : list string) : string :=
  match l with
  | [] => EmptyString
  | [x] => x
  | x :: rest => x ++ sep ++ join sep rest
  end.

(** [s.replace(old, new)] for a one-character [old] *)
Fixpoint replace (old : ascii) (new : string) (s : string) : string :=
  match s with
  | EmptyString => EmptyString
  | String c s' =>
      if Ascii.eqb c old then new ++ replace old new s'
      else String c (replace old new s')
  end.

(** [str(n)], also the rendering of an integer inside an f-string *)
Definition str (n : Z) : string := NilZero.string_of_int (Z.to_int n).

(** *** [int(s)]

    Surrounding whitespace is stripped, one sign is allowed, and the
    digits may be grouped by single underscores.  Among the first 256
    code points the decimal digits are [0]-[9] and the characters
    stripped are TAB, LF, VT, FF, CR, space, U+0085 and U+00A0.  A
    literal of more than [int_max_str_digits] digits is refused
    (the interpreter's default limit).  Every failure is a
    [ValueError]. *)

Definition int_max_str_digits : nat := 4300.

Definition is_int_space (c : ascii) : bool :=
  let n := nat_of_ascii c in
  (((9 <=? n) && (n <=? 13)) || (n =? 32) || (n =? 133) || (n =? 160))%nat.

Definition is_digit (c : ascii) : bool :=
  let n := nat_of_ascii c in ((48 <=? n) && (n <=? 57))%nat.

Definition digit_val (c : ascii) : Z := Z.of_nat (nat_of_ascii c - 48).

Fixpoint lstrip (s : string) : string :=
  match s with
  | String c s' => if is_int_space c then lstrip s' else s
  | EmptyString => EmptyString
  end.

Fixpoint all_space (s : string) : bool :=
  match s with
  | EmptyString => true
  | String c s' => is_int_space c && all_space s'
  end.

(** Digits after the first one: [acc] is the value so far, [count] the
    number of digits so far; an underscore must be followed by a digit;
    what follows the last digit must be whitespace only. *)
Fixpoint int_digits (s : string) (acc : Z) (count : nat) : option (Z * nat) :=
  match s with
  | EmptyString => Some (acc, count)
  | String c s' =>
      if is_digit c then int_digits s' (10 * acc + digit_val c)%Z (S count)
      else if Ascii.eqb c "_" then
        match s' with
        | String d s'' =>
            if is_digit d then int_digits s'' (10 * acc + digit_val d)%Z (S count)
            else None
        | EmptyString => None
        end
      else if all_space s then Some (acc, count)
      else None
  end.

Definition int_unsigned (s : string) : option Z :=
  match s with
  | String c s' =>
      if is_digit c then
        match int_digits s' (digit_val c) 1 with
        | Some (v, count) => if (count <=? int_max_str_digits)%nat then Some v else None
        | None => None
        end
      else None
  | EmptyString => None
  end.

Definition int_opt (s : string) : option Z :=
  match lstrip s with
  | String "+" s' => int_unsigned s'
  | String "-" s' => option_map Z.opp (int_unsigned s')
  | s' => int_unsigned s'
  end.

Definition int (s : string) : res Z :=
  match int_opt s with
  | Some n => Ret n
  | None => Raise ValueError
  end.

(** *** The fragment of [re] used by the two patterns

    Ordered alternation, greedy [*] over a character class, greedy [?],
    numbered capturing groups.  The matcher backtracks as [re] does: it
    returns what the continuation returns on the first path, in priority
    order, on which the continuation succeeds. *)

(** [[...]] and [[^...]]: ranges of code points, a single character
    [c] being the range [(c, c)] *)
Record charclass : Type := { negated : bool; ranges : list (ascii * ascii) }.

Definition in_class (cls : charclass) (c : ascii) : bool :=
  xorb (negated cls)
    (existsb (fun r => (nat_of_ascii (fst r) <=? nat_of_ascii c)%nat
                       && (nat_of_ascii c <=? nat_of_ascii (snd r))%nat)
             (ranges cls)).

Inductive regex : Type :=
| Lit (c : ascii)
| Class (cls : charclass)
| Cat (r1 r2 : regex)
| Alt (r1 r2 : regex)
| Star (cls : charclass)
| Opt (r : regex)
| Group (n : nat) (r : regex).

Definition captures : Type := list (nat * string).

(** The characters of [s] in front of its suffix [s'] *)
Definition consumed (s s' : string) : string :=
  substring 0 (String.length s - String.length s') s.

Fixpoint star {X : Type} (cls : charclass) (s : string) (k : string -> option X)
  : option X :=
  match s with
  | String c s' =>
      if in_class cls c then
        match star cls s' k with
        | Some x => Some x
        | None => k s
        end
      else k s
  | EmptyString => k s
  end.

Fixpoint rmatch {X : Type} (r : regex) (s : string) (caps : captures)
    (k : string -> captures -> option X) : option X :=
  match r with
  | Lit c =>
      match s with
      | String d s' => if Ascii.eqb c d then k s' caps else None
      | EmptyString => None
      end
  | Class cls =>
      match s with
      | String d s' => if in_class cls d then k s' caps else None
      | EmptyString => None
      end
  | Cat r1 r2 => rmatch r1 s caps (fun s' caps' => rmatch r2 s' caps' k)
  | Alt r1 r2 =>
      match rmatch r1 s caps k with
      | Some x => Some x
      | None => rmatch r2 s caps k
      end
  | Star cls => star cls s (fun s' => k s' caps)
  | Opt r' =>
      match rmatch r' s caps k with
      | Some x => Some x
      | None => k s caps
      end
  | Group n r' =>
      rmatch r' s caps (fun s' caps' => k s' ((n, consumed s s') :: caps'))
  end.

(** A match object: [start()], [end()] and the groups, group 0 being
    the whole match *)
Record Match : Type :=
  { m_start : nat; m_end : nat; m_groups : captures }.

(** [m.group(n)] *)
Fixpoint lookup_group (n : nat) (caps : captures) : option string :=
  match caps with
  | [] => None
  | (k, v) :: caps' => if (k =? n)%nat then Some v else lookup_group n caps'
  end.

Definition group (m : Match) (n : nat) : res string :=
  match lookup_group n (m_groups m) with
  | Some v => Ret v
  | None => Raise IndexError
  end.

(** [pattern.match(s)] without the offsets: the length of the match
    that starts at the first character of [s], and its groups *)
Definition match_prefix (r : regex) (s : string) : option (nat * captures) :=
  rmatch r s [] (fun s' caps => Some (String.length s - String.length s', caps)).

(** [pattern.fullmatch(s)]; Python's [None] is [None] *)
Definition fullmatch (r : regex) (s : string) : option Match :=
  rmatch r s []
    (fun s' caps =>
       match s' with
       | EmptyString =>
           Some {| m_start := 0; m_end := String.length s; m_groups := (0, s) :: caps |}
       | String _ _ => None
       end).

(** [pattern.finditer(text)] for a pattern that matches no empty string:
    the leftmost match, then the leftmost match that starts at or after
    its end, and so on.  [skip] counts the characters still covered by
    the previous match and [pos] is the offset of [s] in the text. *)
Fixpoint finditer_from (r : regex) (skip pos : nat) (s : string) : list Match :=
  match s with
  | EmptyString => []
  | String _ s' =>
      match skip with
      | S skip' => finditer_from r skip' (S pos) s'
      | O =>
          match match_prefix r s with
          | Some (n, caps) =>
              {| m_start := pos; m_end := pos + n;
                 m_groups := (0, substring 0 n s) :: caps |}
                :: finditer_from r (n - 1) (S pos) s'
          | None => finditer_from r 0 (S pos) s'
          end
      end
  end.

Definition finditer (r : regex) (text : string) : list Match :=
  finditer_from r 0 0 text.

End Py.

Import Py.

Notation "x <- m ;; k" := (Py.bind m (fun x => k))
  (at level 61, m at next level, right associativity).

(** ** [ANSI_TO_RICH] *)

Definition ANSI_TO_RICH : list (string * string) :=
  [ ("0", "/");
    ("1", "bold"); ("2", "dim"); ("3", "italic"); ("4", "underline");
    ("5", "blink"); ("7", "reverse"); ("8", "hidden"); ("9", "strike");
    ("21", "/bold"); ("22", "/dim"); ("23", "/italic"); ("24", "/underline");
    ("25", "/blink"); ("27", "/reverse"); ("28", "/hidden"); ("29", "/strike");
    ("30", "black"); ("31", "red"); ("32", "green"); ("33", "yellow");
    ("34", "blue"); ("35", "magenta"); ("36", "cyan"); ("37", "white");
    ("39", "default");
    ("40", "on black"); ("41", "on red"); ("42", "on green"); ("43", "on yellow");
    ("44", "on blue"); ("45", "on magenta"); ("46", "on cyan"); ("47", "on white");
    ("49", "on default");
    ("90", "bright_black"); ("91", "bright_red"); ("92", "bright_green");
    ("93", "bright_yellow"); ("94", "bright_blue"); ("95", "bright_magenta");
    ("96", "bright_cyan"); ("97", "bright_white");
    ("100", "on bright_black"); ("101", "on bright_red"); ("102", "on bright_green");
    ("103", "on bright_yellow"); ("104", "on bright_blue"); ("105", "on bright_magenta");
    ("106", "on bright_cyan"); ("107", "on bright_white") ].

(** [d.get(key)]: the first binding of [key] *)
Fixpoint dict_get (d : list (string * string)) (key : string) : option string :=
  match d with
  | [] => None
  | (k, v) :: d' => if String.eqb k key then Some v else dict_get d' key
  end.

(** [key in d] *)
Definition dict_in (key : string) (d : list (string * string)) : bool :=
  match dict_get d key with Some _ => true | None => false end.

(** [d[key]] *)
Definition dict_getitem (d : list (string * string)) (key : string) : res string :=
  match dict_get d key with
  | Some v => Ret v
  | None => Raise KeyError
  end.

(** ** [_parse_sgr] *)

(** [a and b], the right operand evaluated only when the left one holds *)
Definition and_then (a : bool) (b : res bool) : res bool :=
  if a then b else Ret false.

(** The blocks of the loop body return [Some (i', tags')] when they end in
    [continue] and [None] when control falls through to the next block. *)

(** [# 256 color foreground: 38;5;N] with [lead = "38"], [on = ""], and
    [# 256 color background: 48;5;N] with [lead = "48"], [on = "on "] *)
Definition color256_block (lead on : string)
    (parts : list string) (i : nat) (param : string) (tags : list string)
  : res (option (nat * list string)) :=
  guard <- and_then (String.eqb param lead)
             (and_then (i + 2 <? List.length parts)%nat
                (p1 <- lgetitem parts (i + 1) ;; Ret (String.eqb p1 "5"))) ;;
  if guard then
    try_except_ValueError
      (p2 <- lgetitem parts (i + 2) ;;
       color_num <- int p2 ;;
       Ret (Some (i + 3,
                  list_append tags ("[" ++ on ++ "color(" ++ str color_num ++ ")]"))))
      (Ret None)
  else Ret None.

(** [# RGB foreground: 38;2;R;G;B] with [lead = "38"], [on = ""], and
    [# RGB background: 48;2;R;G;B] with [lead = "48"], [on = "on "] *)
Definition rgb_block (lead on : string)
    (parts : list string) (i : nat) (param : string) (tags : list string)
  : res (option (nat * list string)) :=
  guard <- and_then (String.eqb param lead)
             (and_then (i + 4 <? List.length parts)%nat
                (p1 <- lgetitem parts (i + 1) ;; Ret (String.eqb p1 "2"))) ;;
  if guard then
    try_except_ValueError
      (p2 <- lgetitem parts (i + 2) ;;
       r <- int p2 ;;
       p3 <- lgetitem parts (i + 3) ;;
       g <- int p3 ;;
       p4 <- lgetitem parts (i + 4) ;;
       b <- int p4 ;;
       Ret (Some (i + 5,
                  list_append tags ("[" ++ on ++ "rgb(" ++ str r ++ "," ++ str g ++ ","
                                 ++ str b ++ ")]"))))
      (Ret None)
  else Ret None.

(** [# Basic SGR codes], followed by [i += 1] *)
Definition basic_block
    (i : nat) (param : string) (tags : list string) : res (nat * list string) :=
  tags' <- (if dict_in param ANSI_TO_RICH then
              tag <- dict_getitem ANSI_TO_RICH param ;;
              if String.eqb tag "/" then Ret (list_append tags "[/]")
              else if startswith "/" tag then Ret (list_append tags ("[" ++ tag ++ "]"))
              else Ret (list_append tags ("[" ++ tag ++ "]"))
            else Ret tags) ;;
  Ret (i + 1, tags').

(** The body of [while i < len(parts)]: from [(i, tags)] to the state at
    the next test of the loop condition. *)
Definition sgr_body (parts : list string) (i : nat) (tags : list string)
  : res (nat * list string) :=
  param <- lgetitem parts i ;;
  b1 <- color256_block "38" "" parts i param tags ;;
  match b1 with
  | Some st => Ret st
  | None =>
  b2 <- color256_block "48" "on " parts i param tags ;;
  match b2 with
  | Some st => Ret st
  | None =>
  b3 <- rgb_block "38" "" parts i param tags ;;
  match b3 with
  | Some st => Ret st
  | None =>
  b4 <- rgb_block "48" "on " parts i param tags ;;
  match b4 with
  | Some st => Ret st
  | None => basic_block i param tags
  end end end end.

Fixpoint sgr_loop (fuel : nat) (parts : list string) (i : nat) (tags : list string)
  : res (list string) :=
  if (i <? List.length parts)%nat then
    match fuel with
    | O => OutOfFuel
    | S fuel' =>
        st <- sgr_body parts i tags ;;
        sgr_loop fuel' parts (fst st) (snd st)
    end
  else Ret tags.

Definition _parse_sgr (params : string) : res string :=
  if (len params =? 0)%nat || String.eqb params "0" then Ret "[/]"
  else
    let parts := split ";" params in
    tags <- sgr_loop (List.length parts) parts 0 [] ;;
    Ret (join "" tags).

(** ** The two patterns *)

Definition range (lo hi : ascii) : ascii * ascii := (lo, hi).
Definition single (c : ascii) : ascii * ascii := (c, c).

(** [[0-9;:]] *)
Definition cls_params : charclass :=
  {| negated := false; ranges := [range "0" "9"; single ";"; single ":"] |}.
(** [[A-Za-z]] *)
Definition cls_letter : charclass :=
  {| negated := false; ranges := [range "A" "Z"; range "a" "z"] |}.
(** [[^\x07\x1B]] *)
Definition cls_not_bel_esc : charclass :=
  {| negated := true; ranges := [single BEL; single ESC] |}.
(** [[PX^_]] *)
Definition cls_string_intro : charclass :=
  {| negated := false; ranges := [single "P"; single "X"; single "^"; single "_"] |}.
(** [[^\x1B]] *)
Definition cls_not_esc : charclass :=
  {| negated := true; ranges := [single ESC] |}.
(** [[@-Z\\-_]] *)
Definition cls_fe : charclass :=
  {| negated := false; ranges := [range "@" "Z"; range "\" "_"] |}.

Definition ANSI_ALL_PATTERN : regex :=
  Cat (Lit ESC)
    (Alt (Cat (Lit "[") (Cat (Star cls_params) (Class cls_letter)))
    (Alt (Cat (Lit "]") (Cat (Star cls_not_bel_esc)
                           (Opt (Alt (Lit BEL) (Cat (Lit ESC) (Lit "\"))))))
    (Alt (Cat (Class cls_string_intro) (Cat (Star cls_not_esc)
                           (Opt (Cat (Lit ESC) (Lit "\")))))
         (Class cls_fe)))).

Definition ANSI_CSI_PATTERN : regex :=
  Cat (Lit ESC) (Cat (Lit "[")
    (Cat (Group 1 (Star cls_params)) (Group 2 (Class cls_letter)))).

(** ** [_escape_rich_markup] *)

Definition _escape_rich_markup (text : string) : string :=
  replace "]" "\]" (replace "[" "\[" text).

(** ** [ansi_to_rich] *)

(** The body of [for match in ANSI_ALL_PATTERN.finditer(text)], on the
    loop variables [result] and [last_end] *)
Definition ansi_to_rich_body (text : string) (m : Match)
    (result : list string) (last_end : nat) : res (list string * nat) :=
  let result := list_append result (_escape_rich_markup (slice text last_end (m_start m))) in
  seq <- group m 0 ;;
  let csi_match := fullmatch ANSI_CSI_PATTERN seq in
  is_sgr <- match csi_match with
            | Some cm => cmd <- group cm 2 ;; Ret (String.eqb cmd "m")
            | None => Ret false
            end ;;
  result <- (if is_sgr then
               match csi_match with
               | Some cm =>
                   params <- group cm 1 ;;
                   markup <- _parse_sgr params ;;
                   if negb (len markup =? 0)%nat then Ret (list_append result markup)
                   else Ret result
               | None => Raise AttributeError
               end
             else Ret result) ;;
  Ret (result, m_end m).

Fixpoint ansi_to_rich_loop (text : string) (ms : list Match)
    (result : list string) (last_end : nat) : res (list string * nat) :=
  match ms with
  | [] => Ret (result, last_end)
  | m :: ms' =>
      st <- ansi_to_rich_body text m result last_end ;;
      ansi_to_rich_loop text ms' (fst st) (snd st)
  end.

Definition ansi_to_rich (text : string) : res string :=
  st <- ansi_to_rich_loop text (finditer ANSI_ALL_PATTERN text) [] 0 ;;
  let result := list_append (fst st) (_escape_rich_markup (slice_from text (snd st))) in
  Ret (join "" result).

(** ** [OutputProcessor] *)

Record OutputProcessor : Type := { current_line : string }.

(** [__init__] *)
Definition OutputProcessor_init : OutputProcessor := {| current_line := "" |}.

(** The body of [while i < len(text)] in [process], on [i], [self] and
    [result_lines] *)
Definition process_body (text : string) (i : nat) (self : OutputProcessor)
    (result_lines : list string) : res (nat * OutputProcessor * list string) :=
  char <- getitem text i ;;
  if Ascii.eqb char CR then
    crlf <- and_then (i + 1 <? len text)%nat
              (next <- getitem text (i + 1) ;; Ret (Ascii.eqb next LF)) ;;
    if crlf then
      Ret (i + 2, {| current_line := "" |}, list_append result_lines (current_line self))
    else Ret (i + 1, {| current_line := "" |}, result_lines)
  else if Ascii.eqb char LF then
    Ret (i + 1, {| current_line := "" |}, list_append result_lines (current_line self))
  else if Ascii.eqb char BS then
    if negb (len (current_line self) =? 0)%nat then
      Ret (i + 1, {| current_line := drop_last (current_line self) |}, result_lines)
    else Ret (i + 1, self, result_lines)
  else
    Ret (i + 1, {| current_line := current_line self ++ String char "" |}, result_lines).

Fixpoint process_loop (fuel : nat) (text : string) (i : nat) (self : OutputProcessor)
    (result_lines : list string) : res (OutputProcessor * list string) :=
  if (i <? len text)%nat then
    match fuel with
    | O => OutOfFuel
    | S fuel' =>
        st <- process_body text i self result_lines ;;
        process_loop fuel' text (fst (fst st)) (snd (fst st)) (snd st)
    end
  else Ret (self, result_lines).

(** [[f(x) for x in l]] *)
Fixpoint comprehension {A B : Type} (f : A -> res B) (l : list A) : res (list B) :=
  match l with
  | [] => Ret []
  | x :: l' => y <- f x ;; ys <- comprehension f l' ;; Ret (y :: ys)
  end.

(** The completed raw lines of one call and the processor after it: the
    state of [process] when its loop has ended *)
Definition process_lines (text : string) (self : OutputProcessor)
  : res (OutputProcessor * list string) :=
  process_loop (len text) text 0 self [].

(** [process]: the returned string and the processor after the call *)
Definition process (text : string) (self : OutputProcessor)
  : res (string * OutputProcessor) :=
  st <- process_lines text self ;;
  let self := fst st in
  let result_lines := snd st in
  if negb (List.length result_lines =? 0)%nat then
    converted <- comprehension ansi_to_rich result_lines ;;
    Ret (join (String LF "") converted ++ String LF "", self)
  else Ret ("", self).

(** [flush] *)
Definition flush (self : OutputProcessor) : res (string * OutputProcessor) :=
  if negb (len (current_line self) =? 0)%nat then
    converted <- ansi_to_rich (current_line self) ;;
    let result := converted ++ String LF "" in
    Ret (result, {| current_line := "" |})
  else Ret ("", self).

(** [reset] *)
Definition reset (self : OutputProcessor) : OutputProcessor :=
  {| current_line := "" |}.

(** ** Statements of the specification, in its own words *)

(** Slot [j] of the parameter list exists and parses as an integer. *)
Definition slot_parses (parts : list string) (j : nat) : bool :=
  match nth_error parts j with
  | Some s => match int s with Ret _ => true | _ => false end
  | None => false
  end.

(** At slot [i] stands a lead value [38] or [48], followed by a mode slot
    [5] or [2], and the directive has too few trailing slots or a slot
    that does not parse as an integer. *)
Definition malformed_directive (parts : list string) (i : nat) : bool :=
  match nth_error parts i, nth_error parts (i + 1) with
  | Some lead, Some mode =>
      (String.eqb lead "38" || String.eqb lead "48")
      && ((String.eqb mode "5" && negb (slot_parses parts (i + 2)))
          || (String.eqb mode "2"
              && negb (slot_parses parts (i + 2) && slot_parses parts (i + 3)
                       && slot_parses parts (i + 4))))
  | _, _ => false
  end.

(** The replacement the specification describes for literal text: every
    [[] becomes [\[], every []] becomes [\]], nothing else changes. *)
Fixpoint escape_brackets (text : string) : string :=
  match text with
  | EmptyString => EmptyString
  | String c text' =>
      if Ascii.eqb c "[" then String "\" (String "[" (escape_brackets text'))
      else if Ascii.eqb c "]" then String "\" (String "]" (escape_brackets text'))
      else String c (escape_brackets text')
  end.

Fixpoint no_brackets (text : string) : bool :=
  match text with
  | EmptyString => true
  | String c text' =>
      negb (Ascii.eqb c "[") && negb (Ascii.eqb c "]") && no_brackets text'
  end.

(** The condition under which [ansi_to_rich] hands a matched sequence to
    [_parse_sgr]: it is a CSI sequence and its command character is [m]. *)
Definition is_sgr (seq : string) : bool :=
  match fullmatch ANSI_CSI_PATTERN seq with
  | Some cm => match group cm 2 with
               | Ret cmd => String.eqb cmd "m"
               | _ => false
               end
  | None => false
  end.

(** A parameter field written with colons instead of semicolons: digits and
    colons only, at least one colon. *)
Fixpoint has_char (c : ascii) (s : string) : bool :=
  match s with
  | EmptyString => false
  | String d s' => Ascii.eqb d c || has_char c s'
  end.

Fixpoint all_chars (p : ascii -> bool) (s : string) : bool :=
  match s with
  | EmptyString => true
  | String d s' => p d && all_chars p s'
  end.

Definition colon_separated (params : string) : bool :=
  all_chars (fun c => is_digit c || Ascii.eqb c ":") params && has_char ":" params.

(** ** Auxiliary functions of the proofs *)

(** What the loop body of [ansi_to_rich] appends for the matched text
    [seq], besides the escaped literal text in front of it. *)
Definition seq_markup (seq : string) : res string :=
  let csi_match := fullmatch ANSI_CSI_PATTERN seq in
  sgr <- match csi_match with
         | Some cm => cmd <- group cm 2 ;; Ret (String.eqb cmd "m")
         | None => Ret false
         end ;;
  if sgr then
    match csi_match with
    | Some cm => params <- group cm 1 ;; _parse_sgr params
    | None => Raise AttributeError
    end
  else Ret "".

(** [ansi_to_rich] by recursion on the text; [skip] characters are still
    inside the sequence matched last. *)
Fixpoint convert_from (skip : nat) (s : string) : res string :=
  match s with
  | EmptyString => Ret ""
  | String c s' =>
      match skip with
      | S skip' => convert_from skip' s'
      | O =>
          match match_prefix ANSI_ALL_PATTERN s with
          | Some (n, _) =>
              mk <- seq_markup (substring 0 n s) ;;
              rest <- convert_from (n - 1) s' ;;
              Ret (mk ++ rest)
          | None =>
              rest <- convert_from 0 s' ;;
              Ret (_escape_rich_markup (String c "") ++ rest)
          end
      end
  end.

(** Two results of the matcher, [a] on a text and [b] on the same text
    followed by more: [b] lies beyond the shorter text, or they are equal. *)
Definition agree {X : Type} (beyond : X -> Prop) (a b : option X) : Prop :=
  match b with
  | None => a = None
  | Some x => beyond x \/ a = Some x
  end.

Definition beyond_or_none {X : Type} (beyond : X -> Prop) (b : option X) : Prop :=
  match b with
  | None => True
  | Some x => beyond x
  end.

Fixpoint no_groups (r : regex) : bool :=
  match r with
  | Lit _ | Class _ | Star _ => true
  | Cat r1 r2 | Alt r1 r2 => no_groups r1 && no_groups r2
  | Opt r' => no_groups r'
  | Group _ _ => false
  end.

(** The line assembler by recursion on the chunk: the buffer and the
    completed lines after the characters of [s]. *)
Fixpoint assemble (s : string) (cur : string) (lines : list string)
  : string * list string :=
  match s with
  | EmptyString => (cur, lines)
  | String c s' =>
      if Ascii.eqb c CR then
        match s' with
        | String d s'' =>
            if Ascii.eqb d LF then assemble s'' "" (list_append lines cur)
            else assemble s' "" lines
        | EmptyString => assemble s' "" lines
        end
      else if Ascii.eqb c LF then assemble s' "" (list_append lines cur)
      else if Ascii.eqb c BS then
        assemble s' (if negb (len cur =? 0)%nat then drop_last cur else cur) lines
      else assemble s' (cur ++ String c "") lines
  end.

(** The chunk [t1] ends in a carriage return and the chunk [t2] starts
    with a line feed. *)
Fixpoint ends_with_CR (s : string) : bool :=
  match s with
  | EmptyString => false
  | String c EmptyString => Ascii.eqb c CR
  | String _ s' => ends_with_CR s'
  end.

Definition starts_with_LF (s : string) : bool :=
  match s with
  | String c _ => Ascii.eqb c LF
  | EmptyString => false
  end.

(** The characters of [s] from offset [n] on. *)
Fixpoint drop (n : nat) (s : string) : string :=
  match n, s with
  | O, _ => s
  | S n', String _ s' => drop n' s'
  | S _, EmptyString => EmptyString
  end.

(** The chunks fed in order to one processor: the processor after the
    last chunk and the completed raw lines of all the calls. *)
Fixpoint feed (chunks : list string) (self : OutputProcessor)
  : res (OutputProcessor * list string) :=
  match chunks with
  | [] => Ret (self, [])
  | text :: chunks' =>
      st <- process_lines text self ;;
      st' <- feed chunks' (fst st) ;;
      Ret (fst st', (snd st ++ snd st')%list)
  end.

(** The tag of one code that stands alone: its entry of [ANSI_TO_RICH] in
    brackets, nothing for a code that has no entry. *)
Definition single_tag (code : string) : string :=
  match dict_get ANSI_TO_RICH code with
  | Some tag => "[" ++ tag ++ "]"
  | None => ""
  end.

(** A character that the line assembler appends to its buffer. *)
Definition plain_char (c : ascii) : bool :=
  negb (Ascii.eqb c CR) && negb (Ascii.eqb c LF) && negb (Ascii.eqb c BS).

(** Escaped text read back: a backslash in front of a bracket is dropped. *)
Fixpoint unescape (s : string) : string :=
  match s with
  | EmptyString => EmptyString
  | String c s' =>
      if Ascii.eqb c "\" then
        match s' with
        | String d s'' =>
            if Ascii.eqb d "[" || Ascii.eqb d "]" then String d (unescape s'')
            else String c (unescape s')
        | EmptyString => s
        end
      else String c (unescape s')
  end.

(** Every bracket of [s] stands behind a backslash; [prev] tells whether the
    character in front of [s] is one. *)
Fixpoint brackets_escaped (prev : bool) (s : string) : bool :=
  match s with
  | EmptyString => true
  | String c s' =>
      (if Ascii.eqb c "[" || Ascii.eqb c "]" then prev else true)
      && brackets_escaped (Ascii.eqb c "\") s'
  end.

(** The matches [ms] lie in [text] from offset [lo] on, one after the other
    without overlap; each starts at an ESC, is not empty and carries its own
    text as group 0. *)
Fixpoint spans_in_order (text : string) (lo : nat) (ms : list Match) : Prop :=
  match ms with
  | [] => True
  | m :: ms' =>
      lo <= m_start m /\ m_start m < m_end m /\ m_end m <= String.length text
      /\ String.get (m_start m) text = Some ESC
      /\ group m 0 = Ret (slice text (m_start m) (m_end m))
      /\ spans_in_order text (m_end m) ms'
  end.

(** The state of the SGR loop on a list with one more slot in front. *)
Definition shift_state (st : nat * list string) : nat * list string :=
  (S (fst st), snd st).

(** The number of occurrences of [c] in [s]. *)
Fixpoint count_char (c : ascii) (s : string) : nat :=
  match s with
  | EmptyString => 0
  | String d s' => (if Ascii.eqb d c then 1 else 0) + count_char c s'
  end.

(** [n] backspace characters. *)
Fixpoint backspaces (n : nat) : string :=
  match n with
  | O => EmptyString
  | S n' => String BS (backspaces n')
  end.

(** No string of the list holds a line feed. *)
Definition no_LF_tags (tags : list string) : Prop :=
  Forall (fun t => has_char LF t = false) tags.

(** * Properties *)

(** ** Python fragment *)

Lemma bind_Ret {A B : Type} (a : A) (f : A -> res B) : Py.bind (Ret a) f = f a.
Proof. reflexivity. Qed.

Lemma lgetitem_Some {A : Type} (l : list A) (i : nat) (x : A) :
  nth_error l i = Some x -> lgetitem l i = Ret x.
Proof. unfold lgetitem. intros ->. reflexivity. Qed.

Lemma lgetitem_lt {A : Type} (l : list A) (i : nat) :
  i < List.length l -> exists x, nth_error l i = Some x /\ lgetitem l i = Ret x.
Proof.
  intros H. destruct (nth_error l i) as [x|] eqn:E.
  - exists x. split; [reflexivity | now apply lgetitem_Some].
  - apply nth_error_None in E. lia.
Qed.

Lemma int_cases (s : string) : (exists n, int s = Ret n) \/ int s = Raise ValueError.
Proof. unfold int. destruct (int_opt s); [left; eauto | right; reflexivity]. Qed.

Lemma slot_parses_true (parts : list string) (j : nat) :
  slot_parses parts j = true ->
  exists s n, nth_error parts j = Some s /\ int s = Ret n.
Proof.
  unfold slot_parses. destruct (nth_error parts j) as [s|]; [|discriminate].
  destruct (int s) as [n| |] eqn:E; try discriminate. intros _. eauto.
Qed.

Lemma slot_parses_false (parts : list string) (j : nat) :
  slot_parses parts j = false ->
  nth_error parts j = None \/
  exists s, nth_error parts j = Some s /\ int s = Raise ValueError.
Proof.
  unfold slot_parses. destruct (nth_error parts j) as [s|]; [|now left].
  destruct (int_cases s) as [[n E] | E]; rewrite E; [discriminate | right; eauto].
Qed.

(** ** The SGR translator *)

Section SgrBlocks.

Variables (parts : list string) (i : nat) (tags : list string).

Lemma color256_block_other_lead lead on param :
  param <> lead -> color256_block lead on parts i param tags = Ret None.
Proof.
  intros H. unfold color256_block.
  apply String.eqb_neq in H. rewrite H. reflexivity.
Qed.

Lemma rgb_block_other_lead lead on param :
  param <> lead -> rgb_block lead on parts i param tags = Ret None.
Proof.
  intros H. unfold rgb_block.
  apply String.eqb_neq in H. rewrite H. reflexivity.
Qed.

Lemma color256_block_other_mode lead on param mode :
  nth_error parts (i + 1) = Some mode -> mode <> "5" ->
  color256_block lead on parts i param tags = Ret None.
Proof.
  intros Hm Hne. unfold color256_block, and_then.
  rewrite (lgetitem_Some _ _ _ Hm). cbn [Py.bind].
  apply String.eqb_neq in Hne. rewrite Hne.
  destruct (String.eqb param lead); [|reflexivity].
  destruct (i + 2 <? List.length parts)%nat; reflexivity.
Qed.

Lemma rgb_block_other_mode lead on param mode :
  nth_error parts (i + 1) = Some mode -> mode <> "2" ->
  rgb_block lead on parts i param tags = Ret None.
Proof.
  intros Hm Hne. unfold rgb_block, and_then.
  rewrite (lgetitem_Some _ _ _ Hm). cbn [Py.bind].
  apply String.eqb_neq in Hne. rewrite Hne.
  destruct (String.eqb param lead); [|reflexivity].
  destruct (i + 4 <? List.length parts)%nat; reflexivity.
Qed.

Lemma color256_block_hit lead on s n :
  nth_error parts (i + 1) = Some "5" ->
  nth_error parts (i + 2) = Some s -> int s = Ret n ->
  color256_block lead on parts i lead tags
  = Ret (Some (i + 3, list_append tags ("[" ++ on ++ "color(" ++ str n ++ ")]"))).
Proof.
  intros H1 H2 Hn. unfold color256_block, and_then.
  rewrite String.eqb_refl.
  assert (Hlt : (i + 2 <? List.length parts)%nat = true).
  { apply Nat.ltb_lt. apply nth_error_Some. congruence. }
  rewrite Hlt, (lgetitem_Some _ _ _ H1), (lgetitem_Some _ _ _ H2). simpl.
  rewrite Hn. reflexivity.
Qed.

Lemma rgb_block_hit lead on s2 s3 s4 r g b :
  nth_error parts (i + 1) = Some "2" ->
  nth_error parts (i + 2) = Some s2 -> int s2 = Ret r ->
  nth_error parts (i + 3) = Some s3 -> int s3 = Ret g ->
  nth_error parts (i + 4) = Some s4 -> int s4 = Ret b ->
  rgb_block lead on parts i lead tags
  = Ret (Some (i + 5,
               list_append tags ("[" ++ on ++ "rgb(" ++ str r ++ "," ++ str g ++ ","
                                   ++ str b ++ ")]"))).
Proof.
  intros H1 H2 Hr H3 Hg H4 Hb. unfold rgb_block, and_then.
  rewrite String.eqb_refl.
  assert (Hlt : (i + 4 <? List.length parts)%nat = true).
  { apply Nat.ltb_lt. apply nth_error_Some. congruence. }
  rewrite Hlt, (lgetitem_Some _ _ _ H1), (lgetitem_Some _ _ _ H2),
    (lgetitem_Some _ _ _ H3), (lgetitem_Some _ _ _ H4). simpl.
  rewrite Hr. simpl. rewrite Hg. simpl. rewrite Hb. reflexivity.
Qed.

(** A block whose slot does not parse, or is missing, falls through. *)
Lemma color256_block_bad_slot lead on param :
  slot_parses parts (i + 2) = false ->
  color256_block lead on parts i param tags = Ret None.
Proof.
  intros Hbad. unfold color256_block, and_then.
  destruct (String.eqb param lead); [|reflexivity].
  destruct (i + 2 <? List.length parts)%nat eqn:Hlt; [|reflexivity].
  apply Nat.ltb_lt in Hlt.
  destruct (lgetitem_lt parts (i + 1) ltac:(lia)) as (p1 & _ & ->). simpl.
  destruct (String.eqb p1 "5"); [|reflexivity].
  destruct (slot_parses_false _ _ Hbad) as [E | (s & E & Hs)].
  - apply nth_error_None in E. lia.
  - rewrite (lgetitem_Some _ _ _ E). simpl. rewrite Hs. reflexivity.
Qed.

Lemma rgb_block_bad_slot lead on param :
  slot_parses parts (i + 2) && slot_parses parts (i + 3)
    && slot_parses parts (i + 4) = false ->
  rgb_block lead on parts i param tags = Ret None.
Proof.
  intros Hbad. unfold rgb_block, and_then.
  destruct (String.eqb param lead); [|reflexivity].
  destruct (i + 4 <? List.length parts)%nat eqn:Hlt; [|reflexivity].
  apply Nat.ltb_lt in Hlt.
  destruct (lgetitem_lt parts (i + 1) ltac:(lia)) as (p1 & _ & ->). simpl.
  destruct (String.eqb p1 "2"); [|reflexivity].
  destruct (lgetitem_lt parts (i + 2) ltac:(lia)) as (p2 & E2 & ->).
  destruct (lgetitem_lt parts (i + 3) ltac:(lia)) as (p3 & E3 & ->).
  destruct (lgetitem_lt parts (i + 4) ltac:(lia)) as (p4 & E4 & ->).
  unfold slot_parses in Hbad. rewrite E2, E3, E4 in Hbad. simpl.
  destruct (int_cases p2) as [[r Hr] | ->]; [|reflexivity].
  destruct (int_cases p3) as [[g Hg] | Hg]; [|rewrite Hr, Hg; reflexivity].
  destruct (int_cases p4) as [[b Hb] | Hb]; [|rewrite Hr, Hg, Hb; reflexivity].
  rewrite Hr, Hg, Hb in Hbad. discriminate Hbad.
Qed.

(** Each compound block either falls through or continues further on
    with one more tag; it raises nothing. *)
Lemma color256_block_total lead on param :
  color256_block lead on parts i param tags = Ret None \/
  exists tag, color256_block lead on parts i param tags
              = Ret (Some (i + 3, list_append tags tag)).
Proof.
  destruct (slot_parses parts (i + 2)) eqn:Hp.
  - apply slot_parses_true in Hp. destruct Hp as (s & n & E & Hn).
    destruct (String.eqb_spec param lead) as [-> | Hne];
      [| left; now apply color256_block_other_lead].
    destruct (lgetitem_lt parts (i + 1)) as (p1 & E1 & _).
    { assert (i + 2 < List.length parts) by (apply nth_error_Some; congruence). lia. }
    destruct (String.eqb_spec p1 "5") as [-> | Hne];
      [| left; now apply color256_block_other_mode with p1].
    right. eexists. exact (color256_block_hit lead on s n E1 E Hn).
  - left. now apply color256_block_bad_slot.
Qed.

Lemma rgb_block_total lead on param :
  rgb_block lead on parts i param tags = Ret None \/
  exists tag, rgb_block lead on parts i param tags
              = Ret (Some (i + 5, list_append tags tag)).
Proof.
  destruct (slot_parses parts (i + 2) && slot_parses parts (i + 3)
            && slot_parses parts (i + 4)) eqn:Hp.
  - apply andb_true_iff in Hp. destruct Hp as [Hp H4].
    apply andb_true_iff in Hp. destruct Hp as [H2 H3].
    apply slot_parses_true in H2, H3, H4.
    destruct H2 as (s2 & r & E2 & Hr), H3 as (s3 & g & E3 & Hg),
      H4 as (s4 & b & E4 & Hb).
    destruct (String.eqb_spec param lead) as [-> | Hne];
      [| left; now apply rgb_block_other_lead].
    destruct (lgetitem_lt parts (i + 1)) as (p1 & E1 & _).
    { assert (i + 2 < List.length parts) by (apply nth_error_Some; congruence). lia. }
    destruct (String.eqb_spec p1 "2") as [-> | Hne];
      [| left; now apply rgb_block_other_mode with p1].
    right. eexists. exact (rgb_block_hit lead on s2 s3 s4 r g b E1 E2 Hr E3 Hg E4 Hb).
  - left. now apply rgb_block_bad_slot.
Qed.

Lemma basic_block_total param :
  exists tags', basic_block i param tags = Ret (i + 1, tags').
Proof.
  unfold basic_block, dict_in, dict_getitem.
  destruct (dict_get ANSI_TO_RICH param) as [tag|]; cbn [Py.bind];
    [|eexists; reflexivity].
  destruct (String.eqb tag "/"); [eexists; reflexivity|].
  destruct (startswith "/" tag); eexists; reflexivity.
Qed.

(** The loop body raises nothing and moves forward. *)
Lemma sgr_body_total :
  i < List.length parts ->
  exists i' tags', sgr_body parts i tags = Ret (i', tags') /\ i < i'.
Proof.
  intros Hlt. unfold sgr_body.
  destruct (lgetitem_lt parts i Hlt) as (param & _ & ->). simpl.
  destruct (color256_block_total "38" "" param) as [-> | [t ->]]; simpl;
    [| eexists _, _; split; [reflexivity | lia]].
  destruct (color256_block_total "48" "on " param) as [-> | [t ->]]; simpl;
    [| eexists _, _; split; [reflexivity | lia]].
  destruct (rgb_block_total "38" "" param) as [-> | [t ->]]; simpl;
    [| eexists _, _; split; [reflexivity | lia]].
  destruct (rgb_block_total "48" "on " param) as [-> | [t ->]]; simpl;
    [| eexists _, _; split; [reflexivity | lia]].
  destruct (basic_block_total param) as [t ->].
  eexists _, _; split; [reflexivity | lia].
Qed.

End SgrBlocks.

(** With as much fuel as slots are left, the loop returns its tags. *)
Lemma sgr_loop_total (parts : list string) (fuel i : nat) (tags : list string) :
  List.length parts - i <= fuel ->
  exists out, sgr_loop fuel parts i tags = Ret out.
Proof.
  revert i tags. induction fuel as [|fuel IH]; intros i tags Hf; simpl.
  - destruct (Nat.ltb_spec i (List.length parts)); [lia | eauto].
  - destruct (Nat.ltb_spec i (List.length parts)) as [Hlt|]; [|eauto].
    destruct (sgr_body_total parts i tags Hlt) as (i' & tags' & -> & Hi). simpl.
    apply IH. lia.
Qed.

(** [_parse_sgr] returns a string on every input. *)
Lemma parse_sgr_total (params : string) : exists out, _parse_sgr params = Ret out.
Proof.
  unfold _parse_sgr.
  destruct ((len params =? 0)%nat || String.eqb params "0"); [eauto|].
  destruct (sgr_loop_total (split ";" params) (List.length (split ";" params)) 0 [])
    as [out ->]; [lia|]. simpl. eauto.
Qed.

(** One more unit of fuel than needed changes nothing. *)
Lemma sgr_loop_step (parts : list string) (fuel i : nat) (tags : list string)
    (i' : nat) (tags' : list string) :
  i < List.length parts ->
  sgr_body parts i tags = Ret (i', tags') ->
  sgr_loop (S fuel) parts i tags = sgr_loop fuel parts i' tags'.
Proof.
  intros Hlt Hb. simpl.
  apply Nat.ltb_lt in Hlt. rewrite Hlt, Hb. reflexivity.
Qed.

(** C1: when the loop stands at a lead value [38] or [48] followed by [5]
    or [2] and the directive lacks trailing slots or has a slot that does
    not parse as an integer, the body raises nothing, appends no tag and
    moves on by one slot; the loop goes on from that slot and returns its
    tags, and [_parse_sgr] on such a parameter string returns a string. *)
Theorem C1_malformed_directive_skipped (parts : list string) (i : nat) (tags : list string) :
  malformed_directive parts i = true ->
  sgr_body parts i tags = Ret (i + 1, tags)
  /\ (forall fuel, sgr_loop (S fuel) parts i tags = sgr_loop fuel parts (i + 1) tags)
  /\ (exists out, sgr_loop (List.length parts - i) parts i tags = Ret out)
  /\ (forall params, split ";" params = parts -> exists out, _parse_sgr params = Ret out).
Proof.
  intros H.
  assert (Hlt : i < List.length parts).
  { unfold malformed_directive in H.
    destruct (nth_error parts i) eqn:E; [|discriminate].
    apply nth_error_Some. congruence. }
  assert (Hbody : sgr_body parts i tags = Ret (i + 1, tags)).
  { unfold malformed_directive in H.
    destruct (nth_error parts i) as [lead|] eqn:E0; [|discriminate].
    destruct (nth_error parts (i + 1)) as [mode|] eqn:E1; [|discriminate].
    apply andb_true_iff in H. destruct H as [Hlead Hbad].
    unfold sgr_body. rewrite (lgetitem_Some _ _ _ E0). cbn [Py.bind].
    apply orb_true_iff in Hbad.
    destruct Hbad as [Hbad | Hbad]; apply andb_true_iff in Hbad;
      destruct Hbad as [Hmode Hslots]; apply String.eqb_eq in Hmode; subst mode;
      apply negb_true_iff in Hslots.
    - rewrite !color256_block_bad_slot by assumption. cbn [Py.bind].
      rewrite !(rgb_block_other_mode parts i tags _ _ _ "5" E1) by discriminate.
      cbn [Py.bind].
      apply orb_true_iff in Hlead.
      destruct Hlead as [Hl | Hl]; apply String.eqb_eq in Hl; subst lead; reflexivity.
    - rewrite !(color256_block_other_mode parts i tags _ _ _ "2" E1) by discriminate.
      cbn [Py.bind].
      rewrite !rgb_block_bad_slot by assumption. cbn [Py.bind].
      apply orb_true_iff in Hlead.
      destruct Hlead as [Hl | Hl]; apply String.eqb_eq in Hl; subst lead; reflexivity. }
  split; [exact Hbody|]. split; [|split].
  - intros fuel. now apply sgr_loop_step.
  - apply sgr_loop_total. lia.
  - intros params _. apply parse_sgr_total.
Qed.

Lemma C1_malformed_directive_skipped_witness :
  sgr_body ["38"; "5"; "x"; "31"] 0 [] = Ret (1, [])
  /\ sgr_body ["1"; "48"; "2"; "10"; "20"] 1 ["[bold]"] = Ret (2, ["[bold]"])
  /\ _parse_sgr "38;5;x;31" = Ret "[blink][red]".
Proof.
  split; [|split].
  - exact (proj1 (C1_malformed_directive_skipped ["38"; "5"; "x"; "31"] 0 [] eq_refl)).
  - exact (proj1 (C1_malformed_directive_skipped ["1"; "48"; "2"; "10"; "20"] 1 ["[bold]"]
                    eq_refl)).
  - vm_compute. reflexivity.
Defined.

(** ** Strings *)

Lemma str_app_nil_r (s : string) : s ++ "" = s.
Proof. induction s as [|c s IH]; simpl; [reflexivity | now rewrite IH]. Qed.

Lemma str_app_assoc (a b c : string) : (a ++ b) ++ c = a ++ (b ++ c).
Proof. induction a as [|x a IH]; simpl; [reflexivity | now rewrite IH]. Qed.

Lemma str_app_length (a b : string) :
  String.length (a ++ b) = String.length a + String.length b.
Proof. induction a as [|x a IH]; simpl; [reflexivity | now rewrite IH]. Qed.

Lemma substring_none (n : nat) (s : string) : substring n 0 s = "".
Proof.
  revert n. induction s as [|c s IH]; intros [|n]; simpl; try reflexivity. apply IH.
Qed.

Lemma substring_all (s : string) : substring 0 (String.length s) s = s.
Proof. induction s as [|c s IH]; simpl; [reflexivity | now rewrite IH]. Qed.

Lemma substring_prefix_app (n : nat) (a b : string) :
  n <= String.length a -> substring 0 n (a ++ b) = substring 0 n a.
Proof.
  revert n. induction a as [|c a IH]; intros n Hn; simpl in *.
  - assert (n = 0) by lia. subst. now rewrite substring_none.
  - destruct n as [|n]; [reflexivity|]. rewrite IH by lia. reflexivity.
Qed.

Lemma substring_app_left (a b : string) : substring 0 (String.length a) (a ++ b) = a.
Proof. rewrite substring_prefix_app by lia. apply substring_all. Qed.

Lemma slice_empty (s : string) (a b : nat) : b <= a -> slice s a b = "".
Proof.
  intros H. unfold slice. replace (b - a) with 0 by lia. apply substring_none.
Qed.

Lemma slice_snoc (pre : string) (c : ascii) (s' : string) (a : nat) :
  a <= String.length pre ->
  slice (pre ++ String c s') a (S (String.length pre))
  = slice (pre ++ String c s') a (String.length pre) ++ String c "".
Proof.
  unfold slice. revert a. induction pre as [|d pre IH]; intros a Ha; simpl in *.
  - assert (a = 0) by lia. subst. simpl. now rewrite substring_none.
  - destruct a as [|a].
    + simpl. f_equal. specialize (IH 0 ltac:(lia)).
      rewrite !Nat.sub_0_r in IH. exact IH.
    + apply IH. lia.
Qed.

Lemma slice_from_0 (s : string) : slice_from s 0 = s.
Proof. unfold slice_from, slice, len. rewrite Nat.sub_0_r. apply substring_all. Qed.

Lemma join_cons (x : string) (l : list string) : join "" (x :: l) = x ++ join "" l.
Proof. destruct l; simpl; [now rewrite str_app_nil_r | reflexivity]. Qed.

Lemma join_app (l1 l2 : list string) :
  join "" (l1 ++ l2)%list = join "" l1 ++ join "" l2.
Proof.
  induction l1 as [|x l1 IH]; [reflexivity|].
  change ((x :: l1) ++ l2)%list with (x :: (l1 ++ l2))%list.
  rewrite !join_cons, IH. now rewrite str_app_assoc.
Qed.

Lemma join_append (l : list string) (x : string) :
  join "" (list_append l x) = join "" l ++ x.
Proof. unfold list_append. rewrite join_app. reflexivity. Qed.

(** ** The matcher *)

Section Matcher.

Context {X : Type}.

(** [star] answers with the continuation at the whole input, or with a
    success of the continuation further on. *)
Lemma star_cases (cls : charclass) (t : string) (k : string -> option X) :
  star cls t k = k t \/
  exists u x, String.length u < String.length t /\ k u = Some x
              /\ star cls t k = Some x.
Proof.
  induction t as [|c t IH]; simpl; [now left|].
  destruct (in_class cls c); [|now left].
  destruct (star cls t k) as [x|] eqn:E; [|now left].
  right. destruct IH as [IH | (u & y & Hu & Hk & IH)].
  - exists t, x. repeat split; [lia | congruence].
  - exists u, x. repeat split; [lia | congruence].
Qed.

(** The matcher answers [None] or with the continuation at a suffix. *)
Lemma rmatch_result (r : regex) :
  forall (s : string) (caps : captures) (k : string -> captures -> option X),
    rmatch r s caps k = None \/
    exists s' caps', String.length s' <= String.length s
                     /\ rmatch r s caps k = k s' caps'.
Proof.
  induction r as [c | cls | r1 IH1 r2 IH2 | r1 IH1 r2 IH2 | cls | r IH | n r IH];
    intros s caps k; simpl.
  - destruct s as [|d s]; [now left|].
    destruct (Ascii.eqb c d); [|now left].
    right. exists s, caps. simpl. split; [lia | reflexivity].
  - destruct s as [|d s]; [now left|].
    destruct (in_class cls d); [|now left].
    right. exists s, caps. simpl. split; [lia | reflexivity].
  - destruct (IH1 s caps (fun s' caps' => rmatch r2 s' caps' k))
      as [-> | (s1 & c1 & Hl1 & ->)]; [now left|].
    destruct (IH2 s1 c1 k) as [-> | (s2 & c2 & Hl2 & ->)]; [now left|].
    right. exists s2, c2. split; [lia | reflexivity].
  - destruct (rmatch r1 s caps k) as [x|] eqn:E.
    + destruct (IH1 s caps k) as [E' | (s1 & c1 & Hl1 & E')]; [congruence|].
      right. exists s1, c1. split; [lia | congruence].
    + apply IH2.
  - destruct (star_cases cls s (fun s' => k s' caps)) as [-> | (u & x & Hu & Hk & ->)].
    + right. exists s, caps. split; [lia | reflexivity].
    + right. exists u, caps. split; [lia | now rewrite Hk].
  - destruct (rmatch r s caps k) as [x|] eqn:E.
    + destruct (IH s caps k) as [E' | (s1 & c1 & Hl1 & E')]; [congruence|].
      right. exists s1, c1. split; [lia | congruence].
    + right. exists s, caps. split; [lia | reflexivity].
  - destruct (IH s caps (fun s' caps' => k s' ((n, consumed s s') :: caps')))
      as [-> | (s1 & c1 & Hl1 & ->)]; [now left|].
    right. exists s1, ((n, consumed s s1) :: c1). split; [lia | reflexivity].
Qed.

(** Matching a text and matching the same text followed by [t]: either
    the longer text yields a result that lies beyond the shorter one, or
    both yield the same. *)
Variable beyond : X -> Prop.
Variable t : string.

Lemma beyond_agree_none (b : option X) :
  beyond_or_none beyond b -> agree beyond None b.
Proof. destruct b; simpl; auto. Qed.

Lemma star_agree (cls : charclass) (k_s k_t : string -> option X) :
  (forall s', agree beyond (k_s s') (k_t (s' ++ t))) ->
  (forall u, String.length u < String.length t -> beyond_or_none beyond (k_t u)) ->
  forall s, agree beyond (star cls s k_s) (star cls (s ++ t) k_t).
Proof.
  intros Ha Hb s. induction s as [|c s IH]; simpl.
  - destruct (star_cases cls t k_t) as [-> | (u & x & Hu & Hk & ->)].
    + apply (Ha "").
    + simpl. left. specialize (Hb u Hu). rewrite Hk in Hb. exact Hb.
  - destruct (in_class cls c); [|apply (Ha (String c s))].
    destruct (star cls (s ++ t) k_t) as [x|] eqn:E; simpl in IH.
    + destruct IH as [IH | ->]; simpl; [now left | now right].
    + rewrite IH. apply (Ha (String c s)).
Qed.

Lemma rmatch_agree (r : regex) :
  no_groups r = true ->
  forall (s : string) (caps : captures) (k_s k_t : string -> captures -> option X),
    (forall s' caps', agree beyond (k_s s' caps') (k_t (s' ++ t) caps')) ->
    (forall u caps', String.length u < String.length t -> beyond_or_none beyond (k_t u caps')) ->
    agree beyond (rmatch r s caps k_s) (rmatch r (s ++ t) caps k_t).
Proof.
  induction r as [c | cls | r1 IH1 r2 IH2 | r1 IH1 r2 IH2 | cls | r IH | n r IH];
    intros Hng s caps k_s k_t Ha Hb; simpl in *.
  - destruct s as [|d s]; simpl.
    + apply beyond_agree_none. destruct t as [|d t']; simpl; [exact I|].
      destruct (Ascii.eqb c d); [|exact I]. apply Hb. simpl. lia.
    + destruct (Ascii.eqb c d); [apply Ha | reflexivity].
  - destruct s as [|d s]; simpl.
    + apply beyond_agree_none. destruct t as [|d t']; simpl; [exact I|].
      destruct (in_class cls d); [|exact I]. apply Hb. simpl. lia.
    + destruct (in_class cls d); [apply Ha | reflexivity].
  - apply andb_true_iff in Hng. destruct Hng as [Hng1 Hng2].
    apply IH1; [exact Hng1 | |].
    + intros s' caps'. now apply IH2.
    + intros u caps' Hu.
      destruct (rmatch_result r2 u caps' k_t) as [-> | (u' & c' & Hl & ->)];
        [exact I | apply Hb; lia].
  - apply andb_true_iff in Hng. destruct Hng as [Hng1 Hng2].
    specialize (IH1 Hng1 s caps k_s k_t Ha Hb).
    specialize (IH2 Hng2 s caps k_s k_t Ha Hb).
    destruct (rmatch r1 (s ++ t) caps k_t) as [x|]; simpl in IH1.
    + destruct IH1 as [IH1 | ->]; simpl; [now left | now right].
    + rewrite IH1. exact IH2.
  - apply star_agree; [intros s'; apply Ha | intros u; apply Hb].
  - specialize (IH Hng s caps k_s k_t Ha Hb).
    destruct (rmatch r (s ++ t) caps k_t) as [x|]; simpl in IH.
    + destruct IH as [IH | ->]; simpl; [now left | now right].
    + rewrite IH. apply Ha.
  - discriminate.
Qed.

End Matcher.

(** A match that ends inside [s] is found in [s] alone, and a text without
    a match has no prefix with one. *)
Lemma match_prefix_agree (r : regex) (s t : string) :
  no_groups r = true ->
  match match_prefix r (s ++ t) with
  | None => match_prefix r s = None
  | Some (n, caps) => String.length s < n \/ match_prefix r s = Some (n, caps)
  end.
Proof.
  intros Hng. unfold match_prefix.
  pose proof (@rmatch_agree _ (fun x : nat * captures => String.length s < fst x) t r Hng
                s []
                (fun s' caps => Some (String.length s - String.length s', caps))
                (fun s' caps => Some (String.length (s ++ t) - String.length s', caps)))
    as H.
  match type of H with ?A -> ?B -> ?C => assert (HC : C) end.
  { apply H.
    - intros s' caps'. simpl. right. rewrite !str_app_length. do 2 f_equal. lia.
    - intros u caps' Hu. simpl. rewrite str_app_length. lia. }
  unfold agree in HC.
  destruct (rmatch r (s ++ t) [] _) as [[n caps]|]; simpl in HC; exact HC.
Qed.

Lemma rmatch_cat_lit {X : Type} (c d : ascii) (r : regex) (s : string)
    (caps : captures) (k : string -> captures -> option X) :
  rmatch (Cat (Lit c) r) (String d s) caps k
  = if Ascii.eqb c d then rmatch r s caps k else None.
Proof. reflexivity. Qed.

(** Every match of [ANSI_ALL_PATTERN] starts with ESC and has at least one
    character. *)
Lemma ANSI_ALL_match_length (s : string) (n : nat) (caps : captures) :
  match_prefix ANSI_ALL_PATTERN s = Some (n, caps) ->
  1 <= n <= String.length s /\ exists s', s = String ESC s'.
Proof.
  unfold match_prefix, ANSI_ALL_PATTERN.
  destruct s as [|d s]; [discriminate|].
  rewrite rmatch_cat_lit.
  destruct (Ascii.eqb_spec ESC d) as [<- | Hne]; [|discriminate].
  match goal with
  | |- rmatch ?r s [] ?k = _ -> _ =>
      destruct (rmatch_result r s [] k) as [-> | (u & c & Hl & ->)]
  end; [discriminate|].
  intros [= <- <-]. split; [|eauto].
  cbn [String.length]. destruct (String.length u); lia.
Qed.

(** ** The escaper *)

Lemma replace_app (old : ascii) (new a b : string) :
  replace old new (a ++ b) = replace old new a ++ replace old new b.
Proof.
  induction a as [|c a IH]; simpl; [reflexivity|].
  destruct (Ascii.eqb c old); rewrite IH; [now rewrite str_app_assoc | reflexivity].
Qed.

Lemma escape_app (a b : string) :
  _escape_rich_markup (a ++ b) = _escape_rich_markup a ++ _escape_rich_markup b.
Proof. unfold _escape_rich_markup. now rewrite !replace_app. Qed.

(** The two successive replacements are the replacement of the
    specification. *)
Lemma escape_is_escape_brackets (text : string) :
  _escape_rich_markup text = escape_brackets text.
Proof.
  unfold _escape_rich_markup. induction text as [|c text IH]; simpl; [reflexivity|].
  destruct (Ascii.eqb_spec c "[") as [-> | H1]; simpl.
  - now rewrite IH.
  - destruct (Ascii.eqb c "]"); simpl; now rewrite IH.
Qed.

Lemma escape_brackets_id (text : string) :
  no_brackets text = true -> escape_brackets text = text.
Proof.
  induction text as [|c text IH]; simpl; [reflexivity|].
  destruct (Ascii.eqb c "["); [discriminate|].
  destruct (Ascii.eqb c "]"); [discriminate|]. simpl.
  intros H. now rewrite IH.
Qed.

(** ** The converter *)

Lemma res_bind_id {A : Type} (m : res A) : (x <- m ;; Ret x) = m.
Proof. destruct m; reflexivity. Qed.

(** The loop body, by the markup of the matched text. *)
Lemma ansi_to_rich_body_eq (text : string) (m : Match) (result : list string)
    (last_end : nat) :
  ansi_to_rich_body text m result last_end
  = (seq <- group m 0 ;;
     mk <- seq_markup seq ;;
     let result :=
       list_append result (_escape_rich_markup (slice text last_end (m_start m))) in
     Ret (if negb (len mk =? 0)%nat then list_append result mk else result, m_end m)).
Proof.
  unfold ansi_to_rich_body, seq_markup.
  destruct (group m 0) as [seq| |]; cbn [Py.bind]; try reflexivity.
  destruct (fullmatch ANSI_CSI_PATTERN seq) as [cm|]; cbn [Py.bind]; [|reflexivity].
  destruct (group cm 2) as [cmd| |]; cbn [Py.bind]; try reflexivity.
  destruct (String.eqb cmd "m"); cbn [Py.bind]; [|reflexivity].
  destruct (group cm 1) as [params| |]; cbn [Py.bind]; try reflexivity.
  destruct (_parse_sgr params) as [markup| |]; cbn [Py.bind]; try reflexivity.
  destruct (negb (len markup =? 0)%nat); reflexivity.
Qed.

Lemma join_markup (result : list string) (mk : string) :
  join "" (if negb (len mk =? 0)%nat then list_append result mk else result)
  = join "" result ++ mk.
Proof.
  destruct mk as [|c mk]; simpl; [now rewrite str_app_nil_r | apply join_append].
Qed.

(** The loop over the matches of a suffix [s] of the text, started with
    [result] and [last_end], and finished as [ansi_to_rich] finishes. *)
Lemma ansi_to_rich_loop_convert (s : string) :
  forall (pre : string) (skip : nat) (result : list string) (last_end : nat),
    (skip = 0 -> last_end <= String.length pre) ->
    (0 < skip -> last_end = String.length pre + skip) ->
    (st <- ansi_to_rich_loop (pre ++ s)
             (finditer_from ANSI_ALL_PATTERN skip (String.length pre) s) result last_end ;;
     Ret (join "" (list_append (fst st)
                     (_escape_rich_markup (slice_from (pre ++ s) (snd st))))))
    = (rest <- convert_from skip s ;;
       Ret (join "" result
            ++ _escape_rich_markup (slice (pre ++ s) last_end (String.length pre))
            ++ rest)).
Proof.
  induction s as [|c s IH]; intros pre skip result last_end H0 Hpos.
  - simpl. rewrite join_append. unfold slice_from, len.
    rewrite !str_app_nil_r. reflexivity.
  - assert (Etext : pre ++ String c s = (pre ++ String c "") ++ s).
    { rewrite str_app_assoc. reflexivity. }
    assert (Elen : String.length (pre ++ String c "") = S (String.length pre)).
    { rewrite str_app_length. simpl. lia. }
    destruct skip as [|skip].
    + specialize (H0 eq_refl). cbn [finditer_from convert_from].
      destruct (match_prefix ANSI_ALL_PATTERN (String c s)) as [[n caps]|] eqn:Em.
      * destruct (ANSI_ALL_match_length _ _ _ Em) as [[Hn1 Hn2] _].
        cbn [ansi_to_rich_loop]. rewrite ansi_to_rich_body_eq.
        unfold group at 1. cbn [m_groups lookup_group Nat.eqb Py.bind m_start m_end].
        destruct (seq_markup (substring 0 n (String c s))) as [mk| |];
          cbn [Py.bind]; try reflexivity.
        cbn [fst snd].
        specialize (IH (pre ++ String c "") (n - 1)
                      (if negb (len mk =? 0)%nat
                       then list_append
                              (list_append result
                                 (_escape_rich_markup
                                    (slice (pre ++ String c s) last_end (String.length pre))))
                              mk
                       else list_append result
                              (_escape_rich_markup
                                 (slice (pre ++ String c s) last_end (String.length pre))))
                      (String.length pre + n)).
        rewrite <- Etext, Elen in IH. rewrite IH by lia.
        destruct (convert_from (n - 1) s) as [rest| |]; cbn [Py.bind]; try reflexivity.
        rewrite join_markup, join_append.
        rewrite (slice_empty _ (String.length pre + n)) by lia.
        cbn [_escape_rich_markup replace]. rewrite !str_app_assoc. reflexivity.
      * specialize (IH (pre ++ String c "") 0 result last_end).
        rewrite <- Etext, Elen in IH. rewrite IH by lia.
        destruct (convert_from 0 s) as [rest| |]; cbn [Py.bind]; try reflexivity.
        rewrite slice_snoc by lia. rewrite escape_app, !str_app_assoc. reflexivity.
    + specialize (Hpos ltac:(lia)). cbn [finditer_from convert_from].
      specialize (IH (pre ++ String c "") skip result last_end).
      rewrite <- Etext, Elen in IH. rewrite IH by lia.
      rewrite !slice_empty by lia. reflexivity.
Qed.

(** [ansi_to_rich] is [convert_from] on the whole text. *)
Lemma ansi_to_rich_convert (text : string) : ansi_to_rich text = convert_from 0 text.
Proof.
  unfold ansi_to_rich, finditer.
  pose proof (ansi_to_rich_loop_convert text "" 0 [] 0) as H.
  simpl in H. rewrite H by lia.
  rewrite slice_empty by lia. simpl. apply res_bind_id.
Qed.

(** A full match of [ANSI_CSI_PATTERN] has its two groups. *)
Lemma fullmatch_CSI_groups (seq : string) (cm : Match) :
  fullmatch ANSI_CSI_PATTERN seq = Some cm ->
  exists params cmd, group cm 1 = Ret params /\ group cm 2 = Ret cmd.
Proof.
  unfold fullmatch, ANSI_CSI_PATTERN.
  destruct seq as [|d0 seq]; [discriminate|]. rewrite rmatch_cat_lit.
  destruct (Ascii.eqb ESC d0); [|discriminate].
  destruct seq as [|d1 seq]; [discriminate|]. rewrite rmatch_cat_lit.
  destruct (Ascii.eqb "[" d1); [|discriminate].
  cbn [rmatch].
  match goal with
  | |- star ?cls ?t ?k = _ -> _ =>
      assert (Hk : forall u x, k u = Some x ->
                exists params cmd, group x 1 = Ret params /\ group x 2 = Ret cmd);
      [| destruct (star_cases cls t k) as [-> | (u & x & _ & Hu & ->)];
         [ intros H; exact (Hk _ _ H) | intros [= <-]; exact (Hk _ _ Hu) ] ]
  end.
  intros u x. destruct u as [|d u]; [discriminate|].
  destruct (in_class cls_letter d); [|discriminate].
  destruct u; [|discriminate].
  intros [= <-]. eexists _, _. split; reflexivity.
Qed.

(** The markup of a matched text is a string: nothing is raised. *)
Lemma seq_markup_total (seq : string) : exists mk, seq_markup seq = Ret mk.
Proof.
  unfold seq_markup.
  destruct (fullmatch ANSI_CSI_PATTERN seq) as [cm|] eqn:E; cbn [Py.bind]; [|eauto].
  destruct (fullmatch_CSI_groups _ _ E) as (params & cmd & -> & ->). cbn [Py.bind].
  destruct (String.eqb cmd "m"); [|eauto]. apply parse_sgr_total.
Qed.

Lemma seq_markup_not_sgr (seq : string) : is_sgr seq = false -> seq_markup seq = Ret "".
Proof.
  unfold is_sgr, seq_markup.
  destruct (fullmatch ANSI_CSI_PATTERN seq) as [cm|] eqn:E; [|reflexivity].
  destruct (fullmatch_CSI_groups _ _ E) as (params & cmd & _ & ->). cbn [Py.bind].
  intros ->. reflexivity.
Qed.

Lemma convert_from_total (s : string) : forall skip, exists out, convert_from skip s = Ret out.
Proof.
  induction s as [|c s IH]; intros skip; [simpl; eauto|].
  destruct skip as [|skip]; cbn [convert_from]; [|apply IH].
  destruct (match_prefix ANSI_ALL_PATTERN (String c s)) as [[n caps]|].
  - destruct (seq_markup_total (substring 0 n (String c s))) as [mk ->].
    destruct (IH (n - 1)) as [rest ->]. cbn [Py.bind]. eauto.
  - destruct (IH 0) as [rest ->]. cbn [Py.bind]. eauto.
Qed.

(** [ansi_to_rich] returns a string on every text. *)
Lemma ansi_to_rich_total (text : string) : exists out, ansi_to_rich text = Ret out.
Proof. rewrite ansi_to_rich_convert. apply convert_from_total. Qed.

(** The matches found from offset [pos] on, [skip] characters being
    covered already, start at [pos + skip] or later. *)
Lemma finditer_from_start_ge (r : regex) (s : string) :
  forall skip pos m,
    In m (finditer_from r skip pos s) -> pos + skip <= m_start m.
Proof.
  induction s as [|c s IH]; intros skip pos m; simpl; [tauto|].
  destruct skip as [|skip].
  - destruct (match_prefix r (String c s)) as [[n caps]|].
    + intros [<- | H]; simpl; [lia|]. apply IH in H. lia.
    + intros H. apply IH in H. lia.
  - intros H. apply IH in H. lia.
Qed.

Lemma convert_from_skip (x y : string) :
  convert_from (String.length x) (x ++ y) = convert_from 0 y.
Proof. induction x as [|c x IH]; simpl; [reflexivity | exact IH]. Qed.

Lemma convert_from_skip_all (x : string) (skip : nat) :
  String.length x <= skip -> convert_from skip x = Ret "".
Proof.
  revert skip. induction x as [|c x IH]; intros skip H; simpl in *; [reflexivity|].
  destruct skip as [|skip]; [lia|]. apply IH. lia.
Qed.

(** A sequence [seq] that the scanner matches in [pre ++ seq ++ post]
    right after [pre] splits the conversion in three. *)
Lemma convert_from_seq_app (seq post : string) (pre : string) :
  forall skip pos m,
    In m (finditer_from ANSI_ALL_PATTERN skip pos (pre ++ seq ++ post)) ->
    m_start m = pos + String.length pre ->
    m_end m = pos + String.length pre + String.length seq ->
    convert_from skip (pre ++ seq ++ post)
    = (a <- convert_from skip pre ;;
       mk <- seq_markup seq ;;
       b <- convert_from 0 post ;;
       Ret (a ++ mk ++ b)).
Proof.
  induction pre as [|c pre IH]; intros skip pos m Hin Hs He.
  - cbn [String.append String.length] in *.
    destruct skip as [|skip];
      [| apply finditer_from_start_ge in Hin; lia].
    destruct (seq ++ post) as [|d rest] eqn:Esp; [destruct Hin|].
    cbn [finditer_from convert_from] in *.
    destruct (match_prefix ANSI_ALL_PATTERN (String d rest)) as [[n caps]|] eqn:Em;
      [| apply finditer_from_start_ge in Hin; lia].
    destruct (ANSI_ALL_match_length _ _ _ Em) as [[Hn1 Hn2] _].
    destruct Hin as [<- | Hin]; [| apply finditer_from_start_ge in Hin; lia].
    cbn [m_end] in He. assert (n = String.length seq) by lia. subst n.
    rewrite <- Esp, substring_app_left.
    destruct seq as [|e seq]; [simpl in Hn1; lia|].
    cbn [String.append] in Esp. injection Esp as <- <-.
    cbn [String.length]. rewrite Nat.sub_succ, Nat.sub_0_r, convert_from_skip.
    cbn [Py.bind]. reflexivity.
  - cbn [String.append String.length] in *.
    destruct skip as [|skip]; cbn [finditer_from convert_from] in *.
    + pose proof (match_prefix_agree ANSI_ALL_PATTERN (String c pre) (seq ++ post) eq_refl)
        as Hag.
      cbn [String.append] in Hag.
      destruct (match_prefix ANSI_ALL_PATTERN (String c (pre ++ seq ++ post)))
        as [[n caps]|] eqn:Em.
      * destruct (ANSI_ALL_match_length _ _ _ Em) as [[Hn1 Hn2] _].
        destruct Hin as [<- | Hin]; [simpl in Hs; lia|].
        pose proof (finditer_from_start_ge _ _ _ _ _ Hin) as Hge.
        destruct Hag as [Hag | Hag]; [cbn [String.length] in Hag; lia|].
        rewrite Hag.
        rewrite <- (substring_prefix_app n (String c pre) (seq ++ post))
          by (cbn [String.length]; lia).
        cbn [String.append].
        rewrite (IH (n - 1) (S pos) m Hin) by lia.
        destruct (seq_markup (substring 0 n (String c (pre ++ seq ++ post)))) as [mk0| |];
          cbn [Py.bind]; try reflexivity.
        destruct (convert_from (n - 1) pre) as [a| |]; cbn [Py.bind]; try reflexivity.
        destruct (seq_markup seq) as [mk| |]; cbn [Py.bind]; try reflexivity.
        destruct (convert_from 0 post) as [b| |]; cbn [Py.bind]; try reflexivity.
        now rewrite str_app_assoc.
      * rewrite Hag. rewrite (IH 0 (S pos) m Hin) by lia.
        destruct (convert_from 0 pre) as [a| |]; cbn [Py.bind]; try reflexivity.
        destruct (seq_markup seq) as [mk| |]; cbn [Py.bind]; try reflexivity.
        destruct (convert_from 0 post) as [b| |]; cbn [Py.bind]; try reflexivity.
        now rewrite str_app_assoc.
    + apply (IH skip (S pos) m Hin); lia.
Qed.

Lemma ansi_to_rich_seq_app (pre seq post : string) (m : Match) :
  In m (finditer ANSI_ALL_PATTERN (pre ++ seq ++ post)) ->
  m_start m = String.length pre ->
  m_end m = String.length pre + String.length seq ->
  ansi_to_rich (pre ++ seq ++ post)
  = (a <- ansi_to_rich pre ;;
     mk <- seq_markup seq ;;
     b <- ansi_to_rich post ;;
     Ret (a ++ mk ++ b)).
Proof.
  intros Hin Hs He. rewrite !ansi_to_rich_convert.
  now apply (convert_from_seq_app seq post pre 0 0 m).
Qed.

(** C7: a control sequence that the scanner recognises in a line and that
    is not a CSI sequence with command [m] adds nothing to the output: the
    conversion of the line is the conversion of the text in front of the
    sequence followed by the conversion of the text after it. *)
Theorem C7_other_sequences_dropped (pre seq post : string) (m : Match) :
  In m (finditer ANSI_ALL_PATTERN (pre ++ seq ++ post)) ->
  m_start m = String.length pre ->
  m_end m = String.length pre + String.length seq ->
  is_sgr seq = false ->
  exists a b,
    ansi_to_rich pre = Ret a /\ ansi_to_rich post = Ret b
    /\ ansi_to_rich (pre ++ seq ++ post) = Ret (a ++ b).
Proof.
  intros Hin Hs He Hsgr.
  destruct (ansi_to_rich_total pre) as [a Ha].
  destruct (ansi_to_rich_total post) as [b Hb].
  exists a, b. split; [exact Ha|]. split; [exact Hb|].
  rewrite (ansi_to_rich_seq_app pre seq post m Hin Hs He).
  rewrite Ha, Hb, (seq_markup_not_sgr seq Hsgr). reflexivity.
Qed.

Lemma C7_other_sequences_dropped_witness :
  (exists a b,
      ansi_to_rich "ab[c]" = Ret a /\ ansi_to_rich "def" = Ret b
      /\ ansi_to_rich ("ab[c]" ++ String ESC "[2K" ++ "def") = Ret (a ++ b))
  /\ (exists a b,
      ansi_to_rich (String ESC "[1mx") = Ret a /\ ansi_to_rich "y" = Ret b
      /\ ansi_to_rich (String ESC "[1mx" ++ (String ESC "]0;title" ++ String BEL "") ++ "y")
         = Ret (a ++ b))
  /\ (exists a b,
      ansi_to_rich "p" = Ret a /\ ansi_to_rich "q" = Ret b
      /\ ansi_to_rich ("p" ++ (String ESC "Pdata" ++ String ESC "\") ++ "q") = Ret (a ++ b))
  /\ (exists a b,
      ansi_to_rich "p" = Ret a /\ ansi_to_rich "q" = Ret b
      /\ ansi_to_rich ("p" ++ String ESC "M" ++ "q") = Ret (a ++ b)).
Proof.
  split; [|split; [|split]].
  - apply (C7_other_sequences_dropped "ab[c]" (String ESC "[2K") "def"
             {| m_start := 5; m_end := 9; m_groups := [(0, String ESC "[2K")] |});
      [left; reflexivity | reflexivity | reflexivity | reflexivity].
  - apply (C7_other_sequences_dropped (String ESC "[1mx")
             (String ESC "]0;title" ++ String BEL "") "y"
             {| m_start := 5; m_end := 15;
                m_groups := [(0, String ESC "]0;title" ++ String BEL "")] |});
      [right; left; reflexivity | reflexivity | reflexivity | reflexivity].
  - apply (C7_other_sequences_dropped "p" (String ESC "Pdata" ++ String ESC "\") "q"
             {| m_start := 1; m_end := 9;
                m_groups := [(0, String ESC "Pdata" ++ String ESC "\")] |});
      [left; reflexivity | reflexivity | reflexivity | reflexivity].
  - apply (C7_other_sequences_dropped "p" (String ESC "M") "q"
             {| m_start := 1; m_end := 3; m_groups := [(0, String ESC "M")] |});
      [left; reflexivity | reflexivity | reflexivity | reflexivity].
Defined.

(** A text without the ESC character has no match. *)
Lemma finditer_no_ESC (text : string) :
  has_char ESC text = false -> finditer ANSI_ALL_PATTERN text = [].
Proof.
  unfold finditer. generalize 0 at 2. induction text as [|c text IH]; intros pos H;
    [reflexivity|].
  simpl in H. apply orb_false_iff in H. destruct H as [Hc Ht].
  cbn [finditer_from].
  destruct (match_prefix ANSI_ALL_PATTERN (String c text)) as [[n caps]|] eqn:Em.
  - destruct (ANSI_ALL_match_length _ _ _ Em) as [_ [s' [= -> _]]].
    discriminate Hc.
  - now apply IH.
Qed.

(** C9: on a text in which the scanner recognises no escape sequence, the
    conversion returns the text with every [[] replaced by [\[] and every
    []] replaced by [\]], nothing else changed; it returns the text itself
    when the text has no bracket either. *)
Theorem C9_literal_text (text : string) :
  finditer ANSI_ALL_PATTERN text = [] ->
  ansi_to_rich text = Ret (escape_brackets text)
  /\ (no_brackets text = true -> ansi_to_rich text = Ret text).
Proof.
  intros H.
  assert (E : ansi_to_rich text = Ret (escape_brackets text)).
  { unfold ansi_to_rich. rewrite H. cbn [ansi_to_rich_loop Py.bind fst snd].
    rewrite slice_from_0, escape_is_escape_brackets. reflexivity. }
  split; [exact E|].
  intros Hb. rewrite E, escape_brackets_id by exact Hb. reflexivity.
Qed.

Lemma C9_literal_text_witness :
  ansi_to_rich "a[b]c" = Ret "a\[b\]c"
  /\ ansi_to_rich "plain text, 100%" = Ret "plain text, 100%".
Proof.
  split.
  - exact (proj1 (C9_literal_text "a[b]c" eq_refl)).
  - exact (proj2 (C9_literal_text "plain text, 100%" eq_refl) eq_refl).
Defined.

(** C8: the empty parameter string and the parameter string [0] translate
    to [[/]], the code [31] to [[red]], and the line ESC[31m red ESC[0m
    converts to [[red]red[/]]. *)
Theorem C8_reset_and_basic_color :
  _parse_sgr "" = Ret "[/]"
  /\ _parse_sgr "0" = Ret "[/]"
  /\ _parse_sgr "31" = Ret "[red]"
  /\ ansi_to_rich (String ESC "[31m" ++ "red" ++ String ESC "[0m") = Ret "[red]red[/]".
Proof. repeat split; vm_compute; reflexivity. Qed.

(** ** Colon-separated parameters *)

Lemma star_all {X : Type} (cls : charclass) (p rest : string)
    (k : string -> option X) (x : X) :
  all_chars (in_class cls) p = true -> star cls rest k = Some x ->
  star cls (p ++ rest) k = Some x.
Proof.
  intros Hp Hk. induction p as [|c p IH]; simpl in *; [exact Hk|].
  apply andb_true_iff in Hp. destruct Hp as [Hc Hp].
  rewrite Hc, (IH Hp). reflexivity.
Qed.

Lemma star_stop {X : Type} (cls : charclass) (c : ascii) (s : string)
    (k : string -> option X) :
  in_class cls c = false -> star cls (String c s) k = k (String c s).
Proof. intros H. simpl. now rewrite H. Qed.

Lemma all_chars_impl (p q : ascii -> bool) (s : string) :
  (forall c, p c = true -> q c = true) ->
  all_chars p s = true -> all_chars q s = true.
Proof.
  intros Hpq. induction s as [|c s IH]; simpl; [reflexivity|].
  intros H. apply andb_true_iff in H. destruct H as [Hc Hs].
  now rewrite (Hpq c Hc), IH.
Qed.

Lemma digit_or_colon_in_params (c : ascii) :
  is_digit c || Ascii.eqb c ":" = true -> in_class cls_params c = true.
Proof.
  intros H. apply orb_true_iff in H. destruct H as [H | H].
  - unfold is_digit in H. unfold in_class, cls_params.
    cbn [negated ranges existsb xorb fst snd range single].
    change (nat_of_ascii "0") with 48. change (nat_of_ascii "9") with 57.
    rewrite H. reflexivity.
  - apply Ascii.eqb_eq in H. subst c. reflexivity.
Qed.

Lemma has_char_all_chars (c : ascii) (p : ascii -> bool) (s : string) :
  p c = false -> all_chars p s = true -> has_char c s = false.
Proof.
  intros Hc. induction s as [|d s IH]; simpl; [reflexivity|].
  intros H. apply andb_true_iff in H. destruct H as [Hd Hs].
  rewrite (IH Hs), orb_false_r.
  destruct (Ascii.eqb_spec d c) as [-> | _]; [congruence | reflexivity].
Qed.

Lemma split_no_sep (sep : ascii) (s : string) :
  has_char sep s = false -> split sep s = [s].
Proof.
  induction s as [|c s IH]; simpl; [reflexivity|].
  intros H. apply orb_false_iff in H. destruct H as [Hc Hs].
  rewrite Hc, (IH Hs). reflexivity.
Qed.

Lemma dict_get_none (d : list (string * string)) (key : string) (p : string -> bool) :
  forallb (fun kv => negb (p (fst kv))) d = true -> p key = true ->
  dict_get d key = None.
Proof.
  intros Hd Hk. induction d as [|[k v] d IH]; simpl in *; [reflexivity|].
  apply andb_true_iff in Hd. destruct Hd as [Hkv Hd].
  destruct (String.eqb_spec k key) as [-> | _]; [|now apply IH].
  rewrite Hk in Hkv. discriminate.
Qed.

Lemma consumed_app (a b : string) : consumed (a ++ b) b = a.
Proof.
  unfold consumed. rewrite str_app_length, Nat.add_sub. apply substring_app_left.
Qed.

(** A parameter string with a colon and without a semicolon yields no tag. *)
Lemma parse_sgr_colon (params : string) :
  has_char ":" params = true -> has_char ";" params = false ->
  _parse_sgr params = Ret "".
Proof.
  intros Hc Hs. unfold _parse_sgr.
  assert (Hne : forall k, has_char ":" k = false -> params <> k).
  { intros k Hk ->. congruence. }
  assert (H0 : (len params =? 0)%nat = false).
  { destruct params; [discriminate | reflexivity]. }
  assert (H1 : String.eqb params "0" = false).
  { apply String.eqb_neq. now apply Hne. }
  rewrite H0, H1. cbn [orb]. rewrite (split_no_sep _ _ Hs).
  cbn [List.length sgr_loop Nat.ltb Nat.leb]. unfold sgr_body.
  cbn [lgetitem nth_error Py.bind].
  rewrite !color256_block_other_lead, !rgb_block_other_lead by now apply Hne.
  cbn [Py.bind]. unfold basic_block, dict_in.
  rewrite (dict_get_none ANSI_TO_RICH params (has_char ":") eq_refl Hc).
  reflexivity.
Qed.

Lemma match_prefix_first (text : string) (n : nat) (caps : captures) :
  match_prefix ANSI_ALL_PATTERN text = Some (n, caps) ->
  In {| m_start := 0; m_end := n; m_groups := (0, substring 0 n text) :: caps |}
     (finditer ANSI_ALL_PATTERN text).
Proof.
  intros H. unfold finditer. destruct text as [|c text]; [discriminate|].
  cbn [finditer_from]. rewrite H. left. reflexivity.
Qed.

(** C10: for a parameter field made of digits and colons with at least
    one colon, the scanner matches the whole sequence ESC [ params m,
    [ANSI_CSI_PATTERN] splits it into the field and the command [m],
    [_parse_sgr] returns the empty string for the field, and the sequence
    adds nothing to the converted text. *)
Theorem C10_colon_parameters_dropped (params rest : string) :
  colon_separated params = true ->
  let seq := String ESC (String "[" (params ++ "m")) in
  match_prefix ANSI_ALL_PATTERN (seq ++ rest) = Some (String.length seq, [])
  /\ (exists cm, fullmatch ANSI_CSI_PATTERN seq = Some cm
                 /\ group cm 1 = Ret params /\ group cm 2 = Ret "m")
  /\ _parse_sgr params = Ret ""
  /\ ansi_to_rich (seq ++ rest) = ansi_to_rich rest.
Proof.
  intros H seq. apply andb_true_iff in H. destruct H as [Hall Hcolon].
  assert (Hcls : all_chars (in_class cls_params) params = true).
  { revert Hall. apply all_chars_impl. exact digit_or_colon_in_params. }
  assert (Hsemi : has_char ";" params = false).
  { now apply has_char_all_chars with (p := fun c => is_digit c || Ascii.eqb c ":"). }
  assert (Hparse : _parse_sgr params = Ret "") by now apply parse_sgr_colon.
  assert (Hmatch : match_prefix ANSI_ALL_PATTERN (seq ++ rest)
                   = Some (String.length seq, [])).
  { unfold match_prefix, ANSI_ALL_PATTERN, seq.
    cbn [String.append]. rewrite rmatch_cat_lit.
    change (Ascii.eqb ESC ESC) with true. cbv iota.
    rewrite str_app_assoc. cbn [String.append rmatch].
    change (Ascii.eqb "[" "[") with true. cbv iota.
    match goal with
    | |- context [star ?c _ ?k] =>
        rewrite (star_all c params (String "m" rest) k
                   (S (S (String.length (params ++ "m"))), []) Hcls)
    end; [reflexivity|].
    rewrite star_stop by reflexivity.
    change (in_class cls_letter "m") with true. cbv iota.
    cbn [String.length]. rewrite !str_app_length. cbn [String.length].
    do 2 f_equal. lia. }
  assert (Hfull : fullmatch ANSI_CSI_PATTERN seq
                  = Some {| m_start := 0; m_end := String.length seq;
                            m_groups := [(0, seq); (2, "m"); (1, params)] |}).
  { unfold fullmatch, ANSI_CSI_PATTERN, seq.
    rewrite rmatch_cat_lit. change (Ascii.eqb ESC ESC) with true. cbv iota.
    rewrite rmatch_cat_lit. change (Ascii.eqb "[" "[") with true. cbv iota.
    cbn [rmatch].
    match goal with
    | |- star ?c _ ?k = Some ?x =>
        apply (star_all c params "m" k x Hcls)
    end.
    rewrite star_stop by reflexivity.
    change (in_class cls_letter "m") with true. cbv iota.
    rewrite consumed_app. reflexivity. }
  split; [exact Hmatch|]. split; [|split; [exact Hparse|]].
  - eexists. split; [exact Hfull|]. split; reflexivity.
  - pose proof (match_prefix_first _ _ _ Hmatch) as Hin.
    change (seq ++ rest) with ("" ++ seq ++ rest) at 1.
    rewrite (ansi_to_rich_seq_app "" seq rest _ Hin eq_refl eq_refl).
    unfold seq_markup. rewrite Hfull. cbn [Py.bind group m_groups lookup_group Nat.eqb].
    cbn [String.eqb Ascii.eqb Bool.eqb]. rewrite Hparse.
    change (ansi_to_rich "") with (@Ret string ""). cbn [Py.bind String.append].
    apply res_bind_id.
Qed.

Lemma C10_colon_parameters_dropped_witness :
  match_prefix ANSI_ALL_PATTERN (String ESC "[38:5:196m" ++ "text") = Some (11, [])
  /\ _parse_sgr "38:5:196" = Ret ""
  /\ ansi_to_rich (String ESC "[38:5:196m" ++ "text") = ansi_to_rich "text".
Proof.
  pose proof (C10_colon_parameters_dropped "38:5:196" "text" eq_refl) as (H1 & _ & H3 & H4).
  split; [exact H1|]. split; [exact H3 | exact H4].
Defined.

(** ** The line assembler *)

Lemma drop_get (text : string) :
  forall i c, String.get i text = Some c -> drop i text = String c (drop (S i) text).
Proof.
  induction text as [|d text IH]; intros i c H; [destruct i; discriminate|].
  destruct i as [|i]; simpl in *.
  - injection H as ->. now destruct text.
  - now apply IH.
Qed.

Lemma get_lt (text : string) :
  forall i, i < String.length text -> exists c, String.get i text = Some c.
Proof.
  induction text as [|d text IH]; intros i H; simpl in *; [lia|].
  destruct i as [|i]; [eauto|]. apply IH. lia.
Qed.

Lemma drop_all (text : string) :
  forall i, String.length text <= i -> drop i text = "".
Proof.
  induction text as [|d text IH]; intros i H; simpl in *; [now destruct i|].
  destruct i as [|i]; [lia|]. apply IH. lia.
Qed.

Lemma getitem_get (text : string) (i : nat) (c : ascii) :
  String.get i text = Some c -> getitem text i = Ret c.
Proof. unfold getitem. now intros ->. Qed.

(** The loop of [process] is [assemble] on the rest of the chunk; with
    as much fuel as characters are left it raises nothing. *)
Lemma process_loop_assemble (text : string) (fuel : nat) :
  forall i cur lines,
    len text - i <= fuel ->
    process_loop fuel text i {| current_line := cur |} lines
    = Ret ({| current_line := fst (assemble (drop i text) cur lines) |},
           snd (assemble (drop i text) cur lines)).
Proof.
  unfold len. induction fuel as [|fuel IH]; intros i cur lines Hf; cbn [process_loop];
    unfold len.
  - destruct (Nat.ltb_spec i (String.length text)); [lia|].
    rewrite drop_all by lia. reflexivity.
  - destruct (Nat.ltb_spec i (String.length text)) as [Hlt | Hge];
      [| rewrite drop_all by lia; reflexivity].
    destruct (get_lt text i Hlt) as [c Hc].
    rewrite (drop_get _ _ _ Hc). unfold process_body.
    rewrite (getitem_get _ _ _ Hc). cbn [Py.bind assemble current_line].
    destruct (Ascii.eqb c CR).
    + unfold and_then, len. replace (i + 1) with (S i) by lia.
      destruct (Nat.ltb_spec (S i) (String.length text)) as [Hlt' | Hge'].
      * destruct (get_lt text (S i) Hlt') as [d Hd].
        rewrite (drop_get _ _ _ Hd), (getitem_get _ _ _ Hd). cbn [Py.bind].
        destruct (Ascii.eqb d LF); cbn [Py.bind fst snd].
        -- replace (i + 2) with (S (S i)) by lia. apply IH. lia.
        -- rewrite IH by lia. rewrite (drop_get _ _ _ Hd). reflexivity.
      * cbn [Py.bind fst snd]. rewrite IH by lia.
        rewrite drop_all by lia. reflexivity.
    + replace (i + 1) with (S i) by lia.
      destruct (Ascii.eqb c LF); [cbn [Py.bind fst snd]; apply IH; lia|].
      destruct (Ascii.eqb c BS).
      * destruct (negb (len cur =? 0)%nat); cbn [Py.bind fst snd]; apply IH; lia.
      * cbn [Py.bind fst snd]. apply IH. lia.
Qed.

Lemma process_lines_assemble (text : string) (self : OutputProcessor) :
  process_lines text self
  = Ret ({| current_line := fst (assemble text (current_line self) []) |},
         snd (assemble text (current_line self) [])).
Proof.
  unfold process_lines. destruct self as [cur].
  rewrite process_loop_assemble by lia. reflexivity.
Qed.

Lemma comprehension_total {A B : Type} (f : A -> res B) (l : list A) :
  (forall x, exists y, f x = Ret y) -> exists ys, comprehension f l = Ret ys.
Proof.
  intros Hf. induction l as [|x l [ys IH]]; simpl; [eauto|].
  destruct (Hf x) as [y ->]. rewrite IH. simpl. eauto.
Qed.

(** [process] and [flush] return on every input: nothing is raised. *)
Lemma process_total (text : string) (self : OutputProcessor) :
  exists out self', process text self = Ret (out, self').
Proof.
  unfold process. rewrite process_lines_assemble. cbn [Py.bind fst snd].
  destruct (negb (List.length (snd (assemble text (current_line self) [])) =? 0)%nat);
    [|eauto].
  destruct (comprehension_total ansi_to_rich
              (snd (assemble text (current_line self) [])) ansi_to_rich_total) as [ys ->].
  cbn [Py.bind]. eauto.
Qed.

Lemma flush_total (self : OutputProcessor) :
  exists out self', flush self = Ret (out, self').
Proof.
  unfold flush. destruct (negb (len (current_line self) =? 0)%nat); [|eauto].
  destruct (ansi_to_rich_total (current_line self)) as [out ->]. cbn [Py.bind]. eauto.
Qed.

(** C3: the chunk abc CR LF def LF, fed to a fresh processor, completes
    the raw lines abc and def in this order, returns abc LF def LF and
    leaves the buffer empty. *)
Theorem C3_crlf_and_lf_terminate :
  let text := "abc" ++ String CR (String LF "") ++ "def" ++ String LF "" in
  process_lines text OutputProcessor_init = Ret ({| current_line := "" |}, ["abc"; "def"])
  /\ process text OutputProcessor_init
     = Ret ("abc" ++ String LF "" ++ "def" ++ String LF "", {| current_line := "" |}).
Proof. split; vm_compute; reflexivity. Qed.

(** C4: at a carriage return that is not followed by a line feed in the
    chunk, the loop body empties the buffer, completes no line and moves
    on by one character; the chunk abc CR def LF, fed to a fresh
    processor, completes the single raw line def. *)
Theorem C4_bare_carriage_return :
  (forall (text : string) (i : nat) (self : OutputProcessor) (result_lines : list string),
      String.get i text = Some CR ->
      String.get (i + 1) text <> Some LF ->
      process_body text i self result_lines
      = Ret (i + 1, {| current_line := "" |}, result_lines))
  /\ process_lines ("abc" ++ String CR "" ++ "def" ++ String LF "") OutputProcessor_init
     = Ret ({| current_line := "" |}, ["def"]).
Proof.
  split; [|vm_compute; reflexivity].
  intros text i self result_lines Hcr Hlf. unfold process_body.
  rewrite (getitem_get _ _ _ Hcr). cbn [Py.bind].
  change (Ascii.eqb CR CR) with true. cbv iota. unfold and_then, len.
  destruct (Nat.ltb_spec (i + 1) (String.length text)) as [Hlt | Hge]; [|reflexivity].
  destruct (get_lt text (i + 1) Hlt) as [d Hd].
  rewrite (getitem_get _ _ _ Hd). cbn [Py.bind].
  destruct (Ascii.eqb_spec d LF) as [-> | Hne]; [congruence | reflexivity].
Qed.

Lemma C4_bare_carriage_return_witness :
  process_body ("abc" ++ String CR "" ++ "def" ++ String LF "") 3
    {| current_line := "abc" |} []
  = Ret (4, {| current_line := "" |}, [])
  /\ process_body ("abc" ++ String CR "") 3 {| current_line := "abc" |} ["x"]
     = Ret (4, {| current_line := "" |}, ["x"]).
Proof.
  split.
  - apply (proj1 C4_bare_carriage_return); [reflexivity | discriminate].
  - apply (proj1 C4_bare_carriage_return); [reflexivity | discriminate].
Defined.

(** C6: after the chunk partial, [process] has returned the empty string
    and the buffer holds partial; [flush] then returns partial LF and
    empties the buffer; a second [flush] returns the empty string; and
    [flush] after [reset] of the processor that holds partial returns the
    empty string. *)
Theorem C6_flush_and_reset :
  let p1 := {| current_line := "partial" |} in
  let p2 := {| current_line := "" |} in
  process "partial" OutputProcessor_init = Ret ("", p1)
  /\ flush p1 = Ret ("partial" ++ String LF "", p2)
  /\ flush p2 = Ret ("", p2)
  /\ reset p1 = p2
  /\ flush (reset p1) = Ret ("", p2).
Proof. repeat split; vm_compute; reflexivity. Qed.

(** The completed lines are appended to those completed before. *)
Lemma assemble_lines (s : string) :
  forall cur lines,
    assemble s cur lines
    = (fst (assemble s cur []), (lines ++ snd (assemble s cur []))%list).
Proof.
  assert (H : forall n s, String.length s <= n -> forall cur lines,
               assemble s cur lines
               = (fst (assemble s cur []), (lines ++ snd (assemble s cur []))%list)).
  { clear s. induction n as [|n IH]; intros s Hn cur lines.
    - destruct s; [simpl; now rewrite app_nil_r | simpl in Hn; lia].
    - destruct s as [|c s]; [simpl; now rewrite app_nil_r|].
      simpl in Hn. cbn [assemble].
      assert (Hs : forall cur lines x,
                 assemble s cur (list_append lines x)
                 = (fst (assemble s cur (list_append [] x)),
                    (lines ++ snd (assemble s cur (list_append [] x)))%list)).
      { intros cur0 lines0 x. rewrite (IH s ltac:(lia) cur0 (list_append lines0 x)).
        rewrite (IH s ltac:(lia) cur0 (list_append [] x)).
        unfold list_append. cbn [fst snd]. now rewrite <- app_assoc. }
      destruct (Ascii.eqb c CR).
      + destruct s as [|d s']; [apply (IH "" ltac:(simpl; lia))|].
        destruct (Ascii.eqb d LF); [|apply IH; lia].
        rewrite (IH s' ltac:(simpl in Hn; lia) "" (list_append lines cur)).
        rewrite (IH s' ltac:(simpl in Hn; lia) "" (list_append [] cur)).
        unfold list_append. cbn [fst snd]. now rewrite <- app_assoc.
      + destruct (Ascii.eqb c LF); [apply Hs|].
        destruct (Ascii.eqb c BS); apply IH; lia. }
  intros cur lines. now apply (H (String.length s)).
Qed.

(** Cutting a chunk anywhere but between a carriage return and a line
    feed does not change what the assembler does. *)
Lemma assemble_app (t2 : string) :
  forall t1 cur lines,
    ends_with_CR t1 && starts_with_LF t2 = false ->
    assemble (t1 ++ t2) cur lines
    = assemble t2 (fst (assemble t1 cur lines)) (snd (assemble t1 cur lines)).
Proof.
  assert (H : forall n t1, String.length t1 <= n -> forall cur lines,
               ends_with_CR t1 && starts_with_LF t2 = false ->
               assemble (t1 ++ t2) cur lines
               = assemble t2 (fst (assemble t1 cur lines)) (snd (assemble t1 cur lines))).
  { induction n as [|n IH]; intros t1 Hn cur lines Hcut.
    - destruct t1; [reflexivity | simpl in Hn; lia].
    - destruct t1 as [|c t1]; [reflexivity|].
      simpl in Hn. cbn [String.append assemble].
      assert (Htail : ends_with_CR t1 && starts_with_LF t2 = false).
      { destruct t1 as [|d t1]; [reflexivity | exact Hcut]. }
      destruct (Ascii.eqb c CR) eqn:Ec.
      + destruct t1 as [|d t1].
        * cbn [String.append assemble fst snd].
          cbn [ends_with_CR] in Hcut. rewrite Ec in Hcut. cbn [andb] in Hcut.
          destruct t2 as [|e t2]; [reflexivity|].
          cbn [starts_with_LF] in Hcut. rewrite Hcut. reflexivity.
        * cbn [String.append].
          destruct (Ascii.eqb d LF) eqn:Ed.
          -- apply IH; [simpl in Hn; lia|].
             destruct t1 as [|e t1]; [reflexivity | exact Hcut].
          -- apply (IH (String d t1)); [simpl in *; lia | exact Htail].
      + destruct (Ascii.eqb c LF); [apply IH; [lia | exact Htail]|].
        destruct (Ascii.eqb c BS); apply IH; try lia; exact Htail. }
  intros t1 cur lines. now apply (H (String.length t1)).
Qed.

(** For every cut of a text that does not separate a carriage return from
    a line feed, the two chunks fed in order give the lines and the buffer
    of the whole text. *)
Lemma feed_split (t1 t2 : string) (self : OutputProcessor) :
  ends_with_CR t1 && starts_with_LF t2 = false ->
  feed [t1; t2] self = feed [t1 ++ t2] self.
Proof.
  intros Hcut. cbn [feed]. rewrite !process_lines_assemble. cbn [Py.bind fst snd].
  rewrite process_lines_assemble. cbn [Py.bind fst snd current_line].
  rewrite (assemble_app t2 t1 (current_line self) [] Hcut).
  rewrite (assemble_lines t2 _ (snd (assemble t1 (current_line self) []))).
  cbn [fst snd]. now rewrite !app_nil_r.
Qed.

(** C5: fed as one chunk, abc CR LF def LF completes the lines abc and
    def; fed as the chunks abc CR and LF def LF it completes an empty line
    and def, the text abc being lost: a carriage return at the end of a
    chunk is treated as a bare one although a line feed follows it. *)
Theorem C5_crlf_split_across_chunks :
  feed ["abc" ++ String CR (String LF "") ++ "def" ++ String LF ""] OutputProcessor_init
  = Ret ({| current_line := "" |}, ["abc"; "def"])
  /\ feed ["abc" ++ String CR ""; String LF "" ++ "def" ++ String LF ""] OutputProcessor_init
     = Ret ({| current_line := "" |}, [""; "def"]).
Proof. split; vm_compute; reflexivity. Qed.

(** ** Further runs of the embedding on the examples of the specification *)

Example parse_sgr_examples :
  _parse_sgr "38;5;196" = Ret "[color(196)]"
  /\ _parse_sgr "1;48;2;0;128;255;4" = Ret "[bold][on rgb(0,128,255)][underline]"
  /\ _parse_sgr "38;5;x;31" = Ret "[blink][red]"
  /\ _parse_sgr "38;5" = Ret "[blink]"
  /\ _parse_sgr "0;1" = Ret "[/][bold]"
  /\ _parse_sgr ";" = Ret ""
  /\ _parse_sgr "22" = Ret "[/dim]".
Proof. repeat split; vm_compute; reflexivity. Qed.

Example ansi_to_rich_examples :
  ansi_to_rich (String ESC "[38;5;196m" ++ "text" ++ String ESC "[0m")
  = Ret "[color(196)]text[/]"
  /\ ansi_to_rich (String ESC "[38;2;255;0;0m" ++ "text" ++ String ESC "[0m")
     = Ret "[rgb(255,0,0)]text[/]"
  /\ ansi_to_rich ("a" ++ String ESC "[2K" ++ "b") = Ret "ab".
Proof. repeat split; vm_compute; reflexivity. Qed.

Example backspace_example :
  process_lines ("abc" ++ String BS "" ++ "d" ++ String LF "") OutputProcessor_init
  = Ret ({| current_line := "" |}, ["abd"]).
Proof. vm_compute. reflexivity. Qed.

(** * Further properties of the module *)

(** ** [_parse_sgr] beyond the compound directives *)

Lemma res_string_eqb_true (r : res string) (s : string) :
  match r with Ret x => String.eqb x s | _ => false end = true -> r = Ret s.
Proof.
  destruct r as [x| |]; try discriminate. intros H. apply String.eqb_eq in H. now subst.
Qed.

(** X1: [_parse_sgr] raises nothing and its loop never lacks fuel: on
    every parameter string it returns a string. *)
Theorem parse_sgr_never_raises (params : string) :
  exists out, _parse_sgr params = Ret out.
Proof. apply parse_sgr_total. Qed.

(** X2: the keys of [ANSI_TO_RICH] are pairwise distinct, and each key
    given alone to [_parse_sgr] yields its entry in brackets. *)
Theorem table_codes_translate :
  NoDup (map fst ANSI_TO_RICH)
  /\ forall code tag, In (code, tag) ANSI_TO_RICH ->
                      _parse_sgr code = Ret ("[" ++ tag ++ "]").
Proof.
  split.
  - assert (H : forall l : list string,
               (fix nodup (l : list string) : bool :=
                  match l with
                  | [] => true
                  | x :: l' => negb (existsb (String.eqb x) l') && nodup l'
                  end) l = true -> NoDup l).
    { induction l as [|x l IH]; intros H; [constructor|].
      apply andb_true_iff in H. destruct H as [Hx Hl]. constructor; [|now apply IH].
      intros Hin. apply negb_true_iff in Hx.
      assert (existsb (String.eqb x) l = true); [|congruence].
      apply existsb_exists. exists x. split; [exact Hin | apply String.eqb_refl]. }
    apply H. vm_compute. reflexivity.
  - intros code tag Hin.
    assert (H : forallb (fun kv => match _parse_sgr (fst kv) with
                                   | Ret x => String.eqb x ("[" ++ snd kv ++ "]")
                                   | _ => false
                                   end) ANSI_TO_RICH = true)
      by (vm_compute; reflexivity).
    rewrite forallb_forall in H. specialize (H _ Hin).
    now apply res_string_eqb_true in H.
Qed.

Lemma table_codes_translate_witness :
  _parse_sgr "1" = Ret "[bold]" /\ _parse_sgr "27" = Ret "[/reverse]".
Proof.
  split.
  - apply (proj2 table_codes_translate "1" "bold"). right. left. reflexivity.
  - apply (proj2 table_codes_translate "27" "/reverse").
    do 14 right. left. reflexivity.
Defined.

Lemma color256_block_short (lead on : string) (p param : string) (tags : list string) :
  color256_block lead on [p] 0 param tags = Ret None.
Proof. unfold color256_block, and_then. destruct (String.eqb param lead); reflexivity. Qed.

Lemma rgb_block_short (lead on : string) (p param : string) (tags : list string) :
  rgb_block lead on [p] 0 param tags = Ret None.
Proof. unfold rgb_block, and_then. destruct (String.eqb param lead); reflexivity. Qed.

(** X3: a parameter string without semicolon that is not empty and is no
    key of [ANSI_TO_RICH] (an unknown code, a lone [38] or [48], any other
    text) yields the empty string. *)
Theorem unknown_single_code_skipped (params : string) :
  params <> "" -> has_char ";" params = false ->
  dict_get ANSI_TO_RICH params = None ->
  _parse_sgr params = Ret "".
Proof.
  intros Hne Hs Hd. unfold _parse_sgr.
  assert (H0 : (len params =? 0)%nat = false).
  { destruct params; [congruence | reflexivity]. }
  assert (H1 : String.eqb params "0" = false).
  { apply String.eqb_neq. intros ->. discriminate Hd. }
  rewrite H0, H1. cbn [orb]. rewrite (split_no_sep _ _ Hs).
  cbn [List.length sgr_loop Nat.ltb Nat.leb]. unfold sgr_body.
  cbn [lgetitem nth_error Py.bind].
  rewrite !color256_block_short, !rgb_block_short. cbn [Py.bind].
  unfold basic_block, dict_in. rewrite Hd. reflexivity.
Qed.

Lemma unknown_single_code_skipped_witness :
  _parse_sgr "6" = Ret "" /\ _parse_sgr "38" = Ret "" /\ _parse_sgr "1x" = Ret "".
Proof.
  split; [|split].
  - apply unknown_single_code_skipped; [discriminate | reflexivity | reflexivity].
  - apply unknown_single_code_skipped; [discriminate | reflexivity | reflexivity].
  - apply unknown_single_code_skipped; [discriminate | reflexivity | reflexivity].
Defined.

(** Case analysis on the outcome of a computation, then evaluation. *)
Tactic Notation "case_res" constr(t) "as" ident(x) :=
  destruct t as [x|[]|];
  cbn [Py.bind try_except_ValueError option_map]; try reflexivity.
Tactic Notation "case_res" constr(t) :=
  destruct t as [?|[]|];
  cbn [Py.bind try_except_ValueError option_map]; try reflexivity.

Lemma color256_block_shift lead on x parts i param tags :
  color256_block lead on (x :: parts) (S i) param tags
  = (r <- color256_block lead on parts i param tags ;; Ret (option_map shift_state r)).
Proof.
  unfold color256_block, and_then.
  change (S i + 2 <? List.length (x :: parts))%nat with (i + 2 <? List.length parts)%nat.
  change (lgetitem (x :: parts) (S i + 1)) with (lgetitem parts (i + 1)).
  change (lgetitem (x :: parts) (S i + 2)) with (lgetitem parts (i + 2)).
  destruct (String.eqb param lead); [|reflexivity].
  destruct (i + 2 <? List.length parts)%nat; [|reflexivity].
  case_res (lgetitem parts (i + 1)) as p1.
  destruct (String.eqb p1 "5"); [|reflexivity].
  case_res (lgetitem parts (i + 2)) as p2.
  case_res (int p2).
Qed.

Lemma rgb_block_shift lead on x parts i param tags :
  rgb_block lead on (x :: parts) (S i) param tags
  = (r <- rgb_block lead on parts i param tags ;; Ret (option_map shift_state r)).
Proof.
  unfold rgb_block, and_then.
  change (S i + 4 <? List.length (x :: parts))%nat with (i + 4 <? List.length parts)%nat.
  change (lgetitem (x :: parts) (S i + 1)) with (lgetitem parts (i + 1)).
  change (lgetitem (x :: parts) (S i + 2)) with (lgetitem parts (i + 2)).
  change (lgetitem (x :: parts) (S i + 3)) with (lgetitem parts (i + 3)).
  change (lgetitem (x :: parts) (S i + 4)) with (lgetitem parts (i + 4)).
  destruct (String.eqb param lead); [|reflexivity].
  destruct (i + 4 <? List.length parts)%nat; [|reflexivity].
  case_res (lgetitem parts (i + 1)) as p1.
  destruct (String.eqb p1 "2"); [|reflexivity].
  case_res (lgetitem parts (i + 2)) as p2. case_res (int p2).
  case_res (lgetitem parts (i + 3)) as p3. case_res (int p3).
  case_res (lgetitem parts (i + 4)) as p4. case_res (int p4).
Qed.

Lemma basic_block_shift i param tags :
  basic_block (S i) param tags = (st <- basic_block i param tags ;; Ret (shift_state st)).
Proof.
  unfold basic_block.
  destruct (dict_in param ANSI_TO_RICH); [|reflexivity].
  case_res (dict_getitem ANSI_TO_RICH param) as tag.
  destruct (String.eqb tag "/"); [reflexivity|].
  destruct (startswith "/" tag); reflexivity.
Qed.

Lemma sgr_body_shift x parts i tags :
  sgr_body (x :: parts) (S i) tags
  = (st <- sgr_body parts i tags ;; Ret (shift_state st)).
Proof.
  unfold sgr_body. change (lgetitem (x :: parts) (S i)) with (lgetitem parts i).
  case_res (lgetitem parts i) as param.
  rewrite !color256_block_shift, !rgb_block_shift, basic_block_shift.
  case_res (color256_block "38" "" parts i param tags) as b1. destruct b1; [reflexivity|].
  case_res (color256_block "48" "on " parts i param tags) as b2. destruct b2; [reflexivity|].
  case_res (rgb_block "38" "" parts i param tags) as b3. destruct b3; [reflexivity|].
  case_res (rgb_block "48" "on " parts i param tags) as b4. destruct b4; reflexivity.
Qed.

Lemma sgr_loop_shift x parts fuel :
  forall i tags, sgr_loop fuel (x :: parts) (S i) tags = sgr_loop fuel parts i tags.
Proof.
  induction fuel as [|fuel IH]; intros i tags; cbn [sgr_loop];
    change (S i <? List.length (x :: parts))%nat with (i <? List.length parts)%nat;
    [reflexivity|].
  destruct (i <? List.length parts)%nat; [|reflexivity].
  rewrite sgr_body_shift. case_res (sgr_body parts i tags). apply IH.
Qed.

(** The tags found are appended to the tags the loop starts with. *)
Lemma sgr_body_acc t0 parts i tags :
  sgr_body parts i (t0 ++ tags)%list
  = (st <- sgr_body parts i tags ;; Ret (fst st, (t0 ++ snd st)%list)).
Proof.
  unfold sgr_body, color256_block, rgb_block, basic_block, and_then, list_append.
  case_res (lgetitem parts i).
  repeat match goal with
         | |- context [if ?b then _ else _] => destruct b; cbn [Py.bind]
         | |- context [lgetitem parts ?j] => case_res (lgetitem parts j)
         | |- context [int ?p] => case_res (int p)
         | |- context [dict_getitem ANSI_TO_RICH ?p] =>
             case_res (dict_getitem ANSI_TO_RICH p)
         end;
    cbn [fst snd]; rewrite ?app_assoc; reflexivity.
Qed.

Lemma sgr_loop_acc t0 parts fuel :
  forall i tags,
    sgr_loop fuel parts i (t0 ++ tags)%list
    = (r <- sgr_loop fuel parts i tags ;; Ret (t0 ++ r)%list).
Proof.
  induction fuel as [|fuel IH]; intros i tags; cbn [sgr_loop];
    destruct (i <? List.length parts)%nat; try reflexivity.
  rewrite sgr_body_acc. case_res (sgr_body parts i tags). apply IH.
Qed.

Lemma split_cons (sep : ascii) (k rest : string) :
  has_char sep k = false ->
  split sep (k ++ String sep rest) = k :: split sep rest.
Proof.
  induction k as [|c k IH]; simpl.
  - intros _. now rewrite Ascii.eqb_refl.
  - intros H. apply orb_false_iff in H. destruct H as [Hc Hk].
    rewrite Hc, (IH Hk). reflexivity.
Qed.

Lemma has_char_middle (sep : ascii) (k rest : string) :
  has_char sep (k ++ String sep rest) = true.
Proof.
  induction k as [|c k IH]; simpl; [now rewrite Ascii.eqb_refl|].
  rewrite IH. apply orb_true_r.
Qed.

(** On a parameter string that is not empty, [_parse_sgr] is its loop: the
    early return for [0] gives what the loop gives. *)
Lemma parse_sgr_loop (params : string) :
  params <> "" ->
  _parse_sgr params
  = (tags <- sgr_loop (List.length (split ";" params)) (split ";" params) 0 [] ;;
     Ret (join "" tags)).
Proof.
  intros Hne. unfold _parse_sgr.
  destruct params as [|c params]; [congruence|]. cbn [len String.length Nat.eqb orb].
  destruct (String.eqb_spec (String c params) "0") as [-> | _]; reflexivity.
Qed.

(** X4: a first parameter that is neither [38] nor [48] is translated on
    its own: the translation of the string is the tag of that parameter
    (nothing when it has no entry, also when it is empty) followed by the
    translation of the parameters after the semicolon. *)
Theorem leading_code_translates_alone (code rest : string) :
  has_char ";" code = false -> code <> "38" -> code <> "48" -> rest <> "" ->
  exists out,
    _parse_sgr rest = Ret out
    /\ _parse_sgr (code ++ ";" ++ rest) = Ret (single_tag code ++ out).
Proof.
  intros Hsemi H38 H48 Hrest.
  destruct (parse_sgr_total rest) as [out Hout]. exists out. split; [exact Hout|].
  rewrite (parse_sgr_loop rest Hrest) in Hout.
  rewrite parse_sgr_loop.
  2:{ intros E. pose proof (has_char_middle ";" code rest) as Hm.
      cbn [String.append] in E. rewrite E in Hm. discriminate Hm. }
  cbn [String.append]. rewrite (split_cons _ _ _ Hsemi).
  cbn [List.length]. rewrite (sgr_loop_step _ _ 0 [] 1
    (match dict_get ANSI_TO_RICH code with
     | Some tag => ["[" ++ tag ++ "]"]
     | None => []
     end)).
  - rewrite sgr_loop_shift.
    rewrite <- (app_nil_r (match dict_get ANSI_TO_RICH code with
                           | Some tag => ["[" ++ tag ++ "]"]
                           | None => []
                           end)).
    rewrite sgr_loop_acc.
    destruct (sgr_loop (List.length (split ";" rest)) (split ";" rest) 0 [])
      as [tags| |]; cbn [Py.bind] in *; try discriminate.
    injection Hout as <-. rewrite join_app. unfold single_tag.
    destruct (dict_get ANSI_TO_RICH code); cbn [join String.append]; reflexivity.
  - cbn [List.length]. lia.
  - unfold sgr_body. cbn [lgetitem nth_error Py.bind].
    rewrite !color256_block_other_lead, !rgb_block_other_lead by assumption.
    cbn [Py.bind]. unfold basic_block, dict_in, dict_getitem.
    destruct (dict_get ANSI_TO_RICH code) as [tag|]; cbn [Py.bind]; [|reflexivity].
    destruct (String.eqb_spec tag "/") as [-> | _]; [reflexivity|].
    destruct (startswith "/" tag); reflexivity.
Qed.

Lemma leading_code_translates_alone_witness :
  (exists out, _parse_sgr "38;5;196" = Ret out
               /\ _parse_sgr ("1" ++ ";" ++ "38;5;196") = Ret (single_tag "1" ++ out))
  /\ (exists out, _parse_sgr "0" = Ret out
                  /\ _parse_sgr ("" ++ ";" ++ "0") = Ret (single_tag "" ++ out)).
Proof.
  split.
  - apply leading_code_translates_alone; [reflexivity | discriminate ..].
  - apply leading_code_translates_alone; [reflexivity | discriminate ..].
Defined.

(** ** [_escape_rich_markup] *)

Lemma escape_brackets_head (t : string) (d : ascii) (s : string) :
  escape_brackets t = String d s -> Ascii.eqb d "[" || Ascii.eqb d "]" = false.
Proof.
  destruct t as [|c t]; [discriminate|]. simpl.
  destruct (Ascii.eqb c "[") eqn:E1; [intros [= <- _]; reflexivity|].
  destruct (Ascii.eqb c "]") eqn:E2; [intros [= <- _]; reflexivity|].
  intros [= <- _]. now rewrite E1, E2.
Qed.

Lemma unescape_escape_brackets (t : string) : unescape (escape_brackets t) = t.
Proof.
  induction t as [|c t IH]; [reflexivity|]. cbn [escape_brackets].
  destruct (Ascii.eqb_spec c "[") as [-> | H1]; [simpl; now rewrite IH|].
  destruct (Ascii.eqb_spec c "]") as [-> | H2]; [simpl; now rewrite IH|].
  cbn [unescape]. destruct (Ascii.eqb c "\"); [|now rewrite IH].
  destruct (escape_brackets t) as [|d s] eqn:E.
  - destruct t as [|c' t]; [reflexivity|]. simpl in E.
    destruct (Ascii.eqb c' "["); [discriminate|].
    destruct (Ascii.eqb c' "]"); discriminate.
  - rewrite (escape_brackets_head _ _ _ E). now rewrite IH.
Qed.

(** X5: escaping loses nothing: two texts with the same escaped form are
    the same text. *)
Theorem escape_injective (a b : string) :
  _escape_rich_markup a = _escape_rich_markup b -> a = b.
Proof.
  rewrite !escape_is_escape_brackets. intros H.
  rewrite <- (unescape_escape_brackets a), <- (unescape_escape_brackets b).
  now rewrite H.
Qed.

Lemma escape_injective_witness : "a[b]" = "a[b]".
Proof. apply escape_injective. reflexivity. Defined.

Lemma escape_brackets_escaped (t : string) :
  forall prev, brackets_escaped prev (escape_brackets t) = true.
Proof.
  induction t as [|c t IH]; intros prev; [reflexivity|]. cbn [escape_brackets].
  destruct (Ascii.eqb_spec c "[") as [-> | H1]; [simpl; apply IH|].
  destruct (Ascii.eqb_spec c "]") as [-> | H2]; [simpl; apply IH|].
  cbn [brackets_escaped].
  apply Ascii.eqb_neq in H1, H2. rewrite H1, H2. cbn [orb andb]. apply IH.
Qed.

(** X6: in escaped text every bracket stands right behind a backslash,
    and escaping a concatenation is concatenating the escaped parts. *)
Theorem escape_output_shape (a b : string) :
  brackets_escaped false (_escape_rich_markup a) = true
  /\ _escape_rich_markup (a ++ b) = _escape_rich_markup a ++ _escape_rich_markup b.
Proof.
  split; [|apply escape_app].
  rewrite escape_is_escape_brackets. apply escape_brackets_escaped.
Qed.

(** ** [ansi_to_rich] around literal text and sequences *)

(** X7: [ansi_to_rich] raises nothing: on every text it returns a string. *)
Theorem ansi_to_rich_never_raises (text : string) :
  exists out, ansi_to_rich text = Ret out.
Proof. apply ansi_to_rich_total. Qed.

Lemma match_prefix_not_ESC (c : ascii) (s : string) :
  Ascii.eqb c ESC = false -> match_prefix ANSI_ALL_PATTERN (String c s) = None.
Proof.
  intros H. unfold match_prefix, ANSI_ALL_PATTERN. rewrite rmatch_cat_lit.
  rewrite Ascii.eqb_sym, H. reflexivity.
Qed.

(** Text without ESC in front of [s] passes through escaped. *)
Lemma convert_from_literal (lit s : string) :
  has_char ESC lit = false ->
  convert_from 0 (lit ++ s)
  = (r <- convert_from 0 s ;; Ret (_escape_rich_markup lit ++ r)).
Proof.
  induction lit as [|c lit IH]; intros H.
  - cbn [String.append]. now rewrite res_bind_id.
  - simpl in H. apply orb_false_iff in H. destruct H as [Hc Hl].
    cbn [String.append convert_from].
    rewrite (match_prefix_not_ESC _ _ Hc), (IH Hl).
    case_res (convert_from 0 s) as r.
    change (String c lit) with (String c "" ++ lit).
    now rewrite escape_app, str_app_assoc.
Qed.

Lemma match_prefix_sgr (params rest : string) :
  all_chars (in_class cls_params) params = true ->
  match_prefix ANSI_ALL_PATTERN (String ESC (String "[" (params ++ "m")) ++ rest)
  = Some (S (S (String.length (params ++ "m"))), []).
Proof.
  intros Hcls. unfold match_prefix, ANSI_ALL_PATTERN.
  cbn [String.append]. rewrite rmatch_cat_lit.
  change (Ascii.eqb ESC ESC) with true. cbv iota.
  rewrite str_app_assoc. cbn [String.append rmatch].
  change (Ascii.eqb "[" "[") with true. cbv iota.
  match goal with
  | |- context [star ?c _ ?k] =>
      rewrite (star_all c params (String "m" rest) k
                 (S (S (String.length (params ++ "m"))), []) Hcls)
  end; [reflexivity|].
  rewrite star_stop by reflexivity.
  change (in_class cls_letter "m") with true. cbv iota.
  cbn [String.length]. rewrite !str_app_length. cbn [String.length].
  do 2 f_equal. lia.
Qed.

Lemma seq_markup_sgr (params : string) :
  all_chars (in_class cls_params) params = true ->
  seq_markup (String ESC (String "[" (params ++ "m"))) = _parse_sgr params.
Proof.
  intros Hcls. unfold seq_markup.
  assert (Hfull : fullmatch ANSI_CSI_PATTERN (String ESC (String "[" (params ++ "m")))
                  = Some {| m_start := 0;
                            m_end := String.length (String ESC (String "[" (params ++ "m")));
                            m_groups := [(0, String ESC (String "[" (params ++ "m")));
                                         (2, "m"); (1, params)] |}).
  { unfold fullmatch, ANSI_CSI_PATTERN.
    rewrite rmatch_cat_lit. change (Ascii.eqb ESC ESC) with true. cbv iota.
    rewrite rmatch_cat_lit. change (Ascii.eqb "[" "[") with true. cbv iota.
    cbn [rmatch].
    match goal with
    | |- star ?c _ ?k = Some ?x => apply (star_all c params "m" k x Hcls)
    end.
    rewrite star_stop by reflexivity.
    change (in_class cls_letter "m") with true. cbv iota.
    rewrite consumed_app. reflexivity. }
  rewrite Hfull. reflexivity.
Qed.

(** X8: an SGR sequence ESC [ params m that follows text without ESC puts
    the markup of its parameters exactly between the escaped text and the
    conversion of what follows. *)
Theorem sgr_sequence_in_place (lit params post : string) :
  has_char ESC lit = false ->
  all_chars (in_class cls_params) params = true ->
  exists markup b,
    _parse_sgr params = Ret markup /\ ansi_to_rich post = Ret b
    /\ ansi_to_rich (lit ++ String ESC (String "[" (params ++ "m")) ++ post)
       = Ret (_escape_rich_markup lit ++ markup ++ b).
Proof.
  intros Hlit Hcls.
  destruct (parse_sgr_total params) as [markup Hm].
  destruct (ansi_to_rich_total post) as [b Hb].
  exists markup, b. split; [exact Hm|]. split; [exact Hb|].
  rewrite ansi_to_rich_convert, (convert_from_literal _ _ Hlit).
  pose proof (match_prefix_first _ _ _ (match_prefix_sgr params post Hcls)) as Hin.
  pose proof (ansi_to_rich_seq_app "" (String ESC (String "[" (params ++ "m"))) post
                _ Hin eq_refl eq_refl) as H.
  cbn [String.append] in H. rewrite ansi_to_rich_convert in H.
  cbn [String.append]. rewrite H.
  change (ansi_to_rich "") with (@Ret string ""). cbn [Py.bind].
  rewrite (seq_markup_sgr _ Hcls), Hm, Hb. reflexivity.
Qed.

Lemma sgr_sequence_in_place_witness :
  exists markup b,
    _parse_sgr "1;31" = Ret markup /\ ansi_to_rich "x[y]" = Ret b
    /\ ansi_to_rich ("a]" ++ String ESC (String "[" ("1;31" ++ "m")) ++ "x[y]")
       = Ret (_escape_rich_markup "a]" ++ markup ++ b).
Proof. apply sgr_sequence_in_place; reflexivity. Defined.

Lemma star_all_end {X : Type} (cls : charclass) (p : string)
    (k : string -> option X) (x : X) :
  all_chars (in_class cls) p = true -> k "" = Some x -> star cls p k = Some x.
Proof.
  intros Hp Hk. rewrite <- (str_app_nil_r p). now apply star_all.
Qed.

Lemma star_none {X : Type} (cls : charclass) (p rest : string)
    (k : string -> option X) :
  all_chars (in_class cls) p = true ->
  (forall c u, in_class cls c = true -> k (String c u) = None) ->
  star cls rest k = None ->
  star cls (p ++ rest) k = None.
Proof.
  intros Hp Hk Hrest. induction p as [|c p IH]; simpl in *; [exact Hrest|].
  apply andb_true_iff in Hp. destruct Hp as [Hc Hp].
  rewrite Hc, (IH Hp). now apply Hk.
Qed.

Lemma single_range (x d : ascii) :
  (nat_of_ascii x <=? nat_of_ascii d)%nat && (nat_of_ascii d <=? nat_of_ascii x)%nat
  = Ascii.eqb d x.
Proof.
  destruct (Ascii.eqb_spec d x) as [-> | Hne].
  - now rewrite Nat.leb_refl.
  - apply andb_false_iff.
    destruct (Nat.leb_spec (nat_of_ascii x) (nat_of_ascii d)); [|now left].
    destruct (Nat.leb_spec (nat_of_ascii d) (nat_of_ascii x)); [|now right].
    exfalso. apply Hne.
    rewrite <- (ascii_nat_embedding d), <- (ascii_nat_embedding x). f_equal. lia.
Qed.

Lemma in_class_not_esc (d : ascii) :
  in_class cls_not_esc d = negb (Ascii.eqb d ESC).
Proof.
  unfold in_class, cls_not_esc. cbn [negated ranges existsb fst snd single].
  rewrite single_range, orb_false_r. now destruct (Ascii.eqb d ESC).
Qed.

Lemma in_class_not_bel_esc (d : ascii) :
  in_class cls_not_bel_esc d = negb (Ascii.eqb d BEL) && negb (Ascii.eqb d ESC).
Proof.
  unfold in_class, cls_not_bel_esc. cbn [negated ranges existsb fst snd single].
  rewrite !single_range, orb_false_r.
  destruct (Ascii.eqb d BEL), (Ascii.eqb d ESC); reflexivity.
Qed.

Lemma all_not_esc (body : string) :
  has_char ESC body = false -> all_chars (in_class cls_not_esc) body = true.
Proof.
  induction body as [|d body IH]; simpl; [reflexivity|].
  intros H. apply orb_false_iff in H. destruct H as [Hd Hb].
  now rewrite in_class_not_esc, Hd, IH.
Qed.

Lemma all_not_bel_esc (body : string) :
  has_char BEL body = false -> has_char ESC body = false ->
  all_chars (in_class cls_not_bel_esc) body = true.
Proof.
  induction body as [|d body IH]; simpl; [reflexivity|].
  intros H1 H2. apply orb_false_iff in H1, H2.
  destruct H1 as [Hd1 Hb1], H2 as [Hd2 Hb2].
  now rewrite in_class_not_bel_esc, Hd1, Hd2, IH.
Qed.

(** The test of a closed character against a closed class or character. *)
Ltac eval_test t := let v := eval vm_compute in t in change t with v.

Lemma match_prefix_string_sequence (c : ascii) (body : string) :
  has_char ESC body = false ->
  (c = "]"%char /\ has_char BEL body = false)
  \/ c = "P"%char \/ c = "X"%char \/ c = "^"%char \/ c = "_"%char ->
  match_prefix ANSI_ALL_PATTERN (String ESC (String c body))
  = Some (S (S (String.length body)), []).
Proof.
  intros Hesc Hc. unfold match_prefix, ANSI_ALL_PATTERN. rewrite rmatch_cat_lit.
  change (Ascii.eqb ESC ESC) with true. cbv iota.
  destruct Hc as [[-> Hbel] | [-> | [-> | [-> | ->]]]]; cbn [rmatch].
  - eval_test (Ascii.eqb "[" "]"). eval_test (Ascii.eqb "]" "]"). cbv iota.
    match goal with
    | |- context [star ?c _ ?k] =>
        rewrite (star_all_end c body k (S (S (String.length body)), [])
                   (all_not_bel_esc body Hbel Hesc))
    end; [reflexivity|].
    cbn [String.length]. rewrite Nat.sub_0_r. reflexivity.
  - eval_test (Ascii.eqb "[" "P"). eval_test (Ascii.eqb "]" "P").
    eval_test (in_class cls_string_intro "P"). cbv iota.
    match goal with
    | |- context [star ?c _ ?k] =>
        rewrite (star_all_end c body k (S (S (String.length body)), [])
                   (all_not_esc body Hesc))
    end; [reflexivity|].
    cbn [String.length]. rewrite Nat.sub_0_r. reflexivity.
  - eval_test (Ascii.eqb "[" "X"). eval_test (Ascii.eqb "]" "X").
    eval_test (in_class cls_string_intro "X"). cbv iota.
    match goal with
    | |- context [star ?c _ ?k] =>
        rewrite (star_all_end c body k (S (S (String.length body)), [])
                   (all_not_esc body Hesc))
    end; [reflexivity|].
    cbn [String.length]. rewrite Nat.sub_0_r. reflexivity.
  - eval_test (Ascii.eqb "[" "^"). eval_test (Ascii.eqb "]" "^").
    eval_test (in_class cls_string_intro "^"). cbv iota.
    match goal with
    | |- context [star ?c _ ?k] =>
        rewrite (star_all_end c body k (S (S (String.length body)), [])
                   (all_not_esc body Hesc))
    end; [reflexivity|].
    cbn [String.length]. rewrite Nat.sub_0_r. reflexivity.
  - eval_test (Ascii.eqb "[" "_"). eval_test (Ascii.eqb "]" "_").
    eval_test (in_class cls_string_intro "_"). cbv iota.
    match goal with
    | |- context [star ?c _ ?k] =>
        rewrite (star_all_end c body k (S (S (String.length body)), [])
                   (all_not_esc body Hesc))
    end; [reflexivity|].
    cbn [String.length]. rewrite Nat.sub_0_r. reflexivity.
Qed.

Lemma seq_markup_not_csi (c : ascii) (body : string) :
  Ascii.eqb "[" c = false -> seq_markup (String ESC (String c body)) = Ret "".
Proof.
  intros H. unfold seq_markup, fullmatch, ANSI_CSI_PATTERN.
  rewrite rmatch_cat_lit. change (Ascii.eqb ESC ESC) with true. cbv iota.
  rewrite rmatch_cat_lit, H. reflexivity.
Qed.

(** X9: an OSC introducer ESC ] without BEL or ESC after it, and a DCS,
    SOS, PM or APC introducer (ESC P, ESC X, ESC ^, ESC _) without ESC
    after it, take the rest of the line with them: after text without
    ESC, only that text is left, escaped. *)
Theorem unterminated_string_sequence_swallows (lit : string) (c : ascii) (body : string) :
  has_char ESC lit = false ->
  has_char ESC body = false ->
  (c = "]"%char /\ has_char BEL body = false)
  \/ c = "P"%char \/ c = "X"%char \/ c = "^"%char \/ c = "_"%char ->
  ansi_to_rich (lit ++ String ESC (String c body)) = Ret (_escape_rich_markup lit).
Proof.
  intros Hlit Hesc Hc.
  rewrite ansi_to_rich_convert, (convert_from_literal _ _ Hlit).
  cbn [convert_from]. rewrite (match_prefix_string_sequence c body Hesc Hc).
  change (S (S (String.length body))) with (String.length (String ESC (String c body))).
  rewrite substring_all, seq_markup_not_csi.
  2:{ destruct Hc as [[-> _] | [-> | [-> | [-> | ->]]]]; reflexivity. }
  cbn [Py.bind String.length]. rewrite Nat.sub_succ, Nat.sub_0_r.
  rewrite convert_from_skip_all by (cbn [String.length]; lia).
  cbn [Py.bind String.append]. now rewrite str_app_nil_r.
Qed.

Lemma unterminated_string_sequence_swallows_witness :
  ansi_to_rich ("ok " ++ String ESC (String "]" "0;title and the [rest]"))
  = Ret (_escape_rich_markup "ok ")
  /\ ansi_to_rich ("" ++ String ESC (String "P" "all of this"))
     = Ret (_escape_rich_markup "").
Proof.
  split.
  - apply unterminated_string_sequence_swallows;
      [reflexivity | reflexivity | left; split; reflexivity].
  - apply unterminated_string_sequence_swallows;
      [reflexivity | reflexivity | right; left; reflexivity].
Defined.

Lemma params_not_letter (c : ascii) :
  in_class cls_params c = true -> in_class cls_letter c = false.
Proof.
  unfold in_class, cls_params, cls_letter.
  cbn [negated ranges existsb xorb fst snd range single].
  change (nat_of_ascii "0") with 48. change (nat_of_ascii "9") with 57.
  change (nat_of_ascii ";") with 59. change (nat_of_ascii ":") with 58.
  change (nat_of_ascii "A") with 65. change (nat_of_ascii "Z") with 90.
  change (nat_of_ascii "a") with 97. change (nat_of_ascii "z") with 122.
  generalize (nat_of_ascii c). intros n.
  destruct (Nat.leb_spec 48 n), (Nat.leb_spec n 57), (Nat.leb_spec 59 n),
    (Nat.leb_spec n 59), (Nat.leb_spec 58 n), (Nat.leb_spec n 58);
    cbn [andb orb]; try discriminate; intros _;
    destruct (Nat.leb_spec 65 n), (Nat.leb_spec n 90), (Nat.leb_spec 97 n),
      (Nat.leb_spec n 122); cbn [andb orb]; try reflexivity; lia.
Qed.

Lemma has_char_app (c : ascii) (a b : string) :
  has_char c (a ++ b) = has_char c a || has_char c b.
Proof.
  induction a as [|d a IH]; simpl; [reflexivity|]. now rewrite IH, orb_assoc.
Qed.

(** What may follow the parameters of a CSI sequence that is not one:
    nothing, or a character that is neither a parameter character nor a
    letter. *)
Lemma match_prefix_broken_csi (params rest : string) :
  all_chars (in_class cls_params) params = true ->
  match rest with
  | EmptyString => true
  | String x _ => negb (in_class cls_params x) && negb (in_class cls_letter x)
  end = true ->
  match_prefix ANSI_ALL_PATTERN (String ESC (String "[" (params ++ rest))) = None.
Proof.
  intros Hcls Hrest. unfold match_prefix, ANSI_ALL_PATTERN. rewrite rmatch_cat_lit.
  change (Ascii.eqb ESC ESC) with true. cbv iota. cbn [rmatch].
  eval_test (Ascii.eqb "[" "["). eval_test (Ascii.eqb "]" "[").
  eval_test (in_class cls_string_intro "["). eval_test (in_class cls_fe "["). cbv iota.
  match goal with
  | |- context [star ?c _ ?k] => rewrite (star_none c params rest k Hcls)
  end; [reflexivity | |].
  - intros c u Hc. now rewrite (params_not_letter c Hc).
  - destruct rest as [|x rest]; [reflexivity|].
    apply andb_true_iff in Hrest. destruct Hrest as [H1 H2].
    apply negb_true_iff in H1, H2. rewrite star_stop by exact H1. now rewrite H2.
Qed.

Lemma convert_from_no_match (c : ascii) (s : string) :
  match_prefix ANSI_ALL_PATTERN (String c s) = None ->
  convert_from 0 (String c s)
  = (r <- convert_from 0 s ;; Ret (_escape_rich_markup (String c "") ++ r)).
Proof. intros H. cbn [convert_from]. now rewrite H. Qed.

Lemma convert_from_all_literal (lit : string) :
  has_char ESC lit = false -> convert_from 0 lit = Ret (_escape_rich_markup lit).
Proof.
  intros H. pose proof (convert_from_literal lit "" H) as E.
  rewrite str_app_nil_r in E. rewrite E. cbn [convert_from Py.bind].
  now rewrite str_app_nil_r.
Qed.

(** X10: ESC [ and parameter characters that are followed by the end of
    the line, or by a character that is neither a parameter character nor
    a letter, are no sequence: with text without ESC around them, the
    whole line is literal text, the ESC kept and the brackets escaped. *)
Theorem broken_csi_is_literal (lit params rest : string) :
  has_char ESC lit = false ->
  all_chars (in_class cls_params) params = true ->
  match rest with
  | EmptyString => true
  | String x _ => negb (in_class cls_params x) && negb (in_class cls_letter x)
  end = true ->
  has_char ESC rest = false ->
  ansi_to_rich (lit ++ String ESC (String "[" (params ++ rest)))
  = Ret (_escape_rich_markup (lit ++ String ESC (String "[" (params ++ rest)))).
Proof.
  intros Hlit Hcls Hrest Hesc.
  assert (Htail : convert_from 0 (String "[" (params ++ rest))
                  = Ret (_escape_rich_markup (String "[" (params ++ rest)))).
  { apply convert_from_all_literal. cbn [has_char]. rewrite has_char_app, Hesc.
    rewrite (has_char_all_chars ESC (in_class cls_params) params eq_refl Hcls).
    reflexivity. }
  rewrite ansi_to_rich_convert, (convert_from_literal _ _ Hlit).
  rewrite (convert_from_no_match _ _ (match_prefix_broken_csi params rest Hcls Hrest)).
  rewrite Htail. cbn [Py.bind].
  change (String ESC (String "[" (params ++ rest)))
    with (String ESC "" ++ String "[" (params ++ rest)).
  now rewrite !escape_app.
Qed.

Lemma broken_csi_is_literal_witness :
  ansi_to_rich ("50%" ++ String ESC (String "[" ("38;5" ++ "")))
  = Ret (_escape_rich_markup ("50%" ++ String ESC (String "[" ("38;5" ++ ""))))
  /\ ansi_to_rich ("" ++ String ESC (String "[" ("1" ++ " m")))
     = Ret (_escape_rich_markup ("" ++ String ESC (String "[" ("1" ++ " m")))).
Proof.
  split; apply broken_csi_is_literal; reflexivity.
Defined.

Lemma get_app_skip (pre : string) (c : ascii) (s : string) :
  String.get (String.length pre) (pre ++ String c s) = Some c.
Proof. induction pre as [|d pre IH]; simpl; [reflexivity | exact IH]. Qed.

Lemma substring_app_skip (pre s : string) (m : nat) :
  substring (String.length pre) m (pre ++ s) = substring 0 m s.
Proof. induction pre as [|d pre IH]; simpl; [reflexivity | exact IH]. Qed.

Lemma spans_in_order_weaken (text : string) (lo lo' : nat) (ms : list Match) :
  lo' <= lo -> spans_in_order text lo ms -> spans_in_order text lo' ms.
Proof.
  intros Hle. destruct ms as [|m ms]; [trivial|]. simpl.
  intros (H1 & H2). split; [lia | exact H2].
Qed.

Lemma finditer_from_in_order (s : string) :
  forall pre skip,
    spans_in_order (pre ++ s) (String.length pre + skip)
      (finditer_from ANSI_ALL_PATTERN skip (String.length pre) s).
Proof.
  induction s as [|c s IH]; intros pre skip; [exact I|].
  assert (Etext : pre ++ String c s = (pre ++ String c "") ++ s).
  { rewrite str_app_assoc. reflexivity. }
  assert (Elen : String.length (pre ++ String c "") = S (String.length pre)).
  { rewrite str_app_length. simpl. lia. }
  cbn [finditer_from]. destruct skip as [|skip].
  - destruct (match_prefix ANSI_ALL_PATTERN (String c s)) as [[n caps]|] eqn:Em.
    + destruct (ANSI_ALL_match_length _ _ _ Em) as [[Hn1 Hn2] [s' Hs']].
      injection Hs' as -> ->.
      cbn [spans_in_order m_start m_end]. repeat split.
      * lia.
      * lia.
      * rewrite str_app_length. lia.
      * apply get_app_skip.
      * unfold group. cbn [m_groups lookup_group Nat.eqb]. unfold slice.
        replace (String.length pre + n - String.length pre) with n by lia.
        now rewrite substring_app_skip.
      * specialize (IH (pre ++ String ESC "") (n - 1)).
        rewrite <- Etext, Elen in IH.
        replace (S (String.length pre) + (n - 1)) with (String.length pre + n) in IH
          by lia.
        exact IH.
    + specialize (IH (pre ++ String c "") 0). rewrite <- Etext, Elen in IH.
      eapply spans_in_order_weaken; [|exact IH]. lia.
  - specialize (IH (pre ++ String c "") skip). rewrite <- Etext, Elen in IH.
    replace (String.length pre + S skip) with (S (String.length pre) + skip) by lia.
    exact IH.
Qed.

(** X11: the matches that the scanner reports on a text lie inside the
    text in increasing order and do not overlap; each starts at an ESC,
    has at least one character, and its group 0 is the slice of the text
    between its start and its end. *)
Theorem matches_in_order (text : string) :
  spans_in_order text 0 (finditer ANSI_ALL_PATTERN text).
Proof. exact (finditer_from_in_order text "" 0). Qed.

(** ** The line assembler across calls *)

(** X12: [process] and [flush] raise nothing and the loop of [process]
    never lacks fuel: on every chunk and in every state they return. *)
Theorem processor_never_raises (text : string) (self : OutputProcessor) :
  (exists out self', process text self = Ret (out, self'))
  /\ (exists out self', flush self = Ret (out, self')).
Proof. split; [apply process_total | apply flush_total]. Qed.

(** X13: a text cut in two chunks anywhere but between a carriage return
    and a line feed gives, fed chunk by chunk, the completed lines and the
    buffer of the text fed at once. *)
Theorem chunking_invariance (t1 t2 : string) (self : OutputProcessor) :
  ends_with_CR t1 && starts_with_LF t2 = false ->
  feed [t1; t2] self = feed [t1 ++ t2] self.
Proof. apply feed_split. Qed.

Lemma chunking_invariance_witness :
  feed ["ab" ++ String CR "x" ++ String BS ""; "c" ++ String LF "d"] OutputProcessor_init
  = feed [("ab" ++ String CR "x" ++ String BS "") ++ ("c" ++ String LF "d")]
      OutputProcessor_init.
Proof. apply chunking_invariance. reflexivity. Defined.

(** Each line feed of the chunk, alone or behind a carriage return,
    completes one line. *)
Lemma assemble_count (s : string) :
  forall cur lines,
    List.length (snd (assemble s cur lines)) = List.length lines + count_char LF s.
Proof.
  assert (H : forall n s, String.length s <= n -> forall cur lines,
               List.length (snd (assemble s cur lines))
               = List.length lines + count_char LF s).
  { clear s. induction n as [|n IH]; intros s Hn cur lines.
    - destruct s; [simpl; lia | simpl in Hn; lia].
    - destruct s as [|c s]; [simpl; lia|].
      simpl in Hn. cbn [assemble count_char].
      destruct (Ascii.eqb_spec c CR) as [-> | Hcr].
      + eval_test (Ascii.eqb CR LF). cbn [Nat.add].
        destruct s as [|d s']; [simpl; lia|]. cbn [count_char].
        destruct (Ascii.eqb d LF) eqn:Ed.
        * rewrite IH by (simpl in Hn; lia). unfold list_append.
          rewrite length_app. simpl. lia.
        * rewrite IH by lia. cbn [count_char]. rewrite Ed. reflexivity.
      + destruct (Ascii.eqb c LF).
        * rewrite IH by lia. unfold list_append. rewrite length_app. simpl. lia.
        * destruct (Ascii.eqb c BS); rewrite IH by lia; reflexivity. }
  intros cur lines. now apply (H (String.length s)).
Qed.

Lemma join_nonempty_LF (l : list string) : join (String LF "") l ++ String LF "" <> "".
Proof.
  destruct (join (String LF "") l); discriminate.
Qed.

(** X14: one call of [process] completes as many lines as the chunk has
    line feeds, and it returns the empty string exactly when the chunk has
    none. *)
Theorem completed_lines_count (text : string) (self : OutputProcessor) :
  exists self' lines out,
    process_lines text self = Ret (self', lines)
    /\ process text self = Ret (out, self')
    /\ List.length lines = count_char LF text
    /\ (out = "" <-> count_char LF text = 0).
Proof.
  destruct (process_total text self) as (out & self' & Hp).
  unfold process in Hp. rewrite process_lines_assemble in *. cbn [Py.bind fst snd] in Hp.
  pose proof (assemble_count text (current_line self) []) as Hc. cbn [List.length Nat.add] in Hc.
  exists {| current_line := fst (assemble text (current_line self) []) |},
    (snd (assemble text (current_line self) [])), out.
  split; [reflexivity|].
  destruct (snd (assemble text (current_line self) [])) as [|l ls] eqn:El.
  - cbn [List.length Nat.eqb negb] in Hp. injection Hp as <- <-.
    unfold process. rewrite process_lines_assemble. cbn [Py.bind fst snd].
    rewrite El. cbn [List.length Nat.eqb negb].
    split; [reflexivity|]. split; [exact Hc|]. split; [intros _; now rewrite <- Hc | reflexivity].
  - cbn [List.length Nat.eqb negb] in Hp.
    destruct (comprehension ansi_to_rich (l :: ls)) as [conv| |] eqn:Ec;
      cbn [Py.bind] in Hp; try discriminate.
    injection Hp as <- <-.
    unfold process. rewrite process_lines_assemble. cbn [Py.bind fst snd].
    rewrite El. cbn [List.length Nat.eqb negb]. rewrite Ec. cbn [Py.bind].
    split; [reflexivity|]. split; [exact Hc|].
    split; [intros E; now apply join_nonempty_LF in E|].
    intros E. rewrite <- Hc in E. discriminate E.
Qed.

Lemma all_chars_app (p : ascii -> bool) (a b : string) :
  all_chars p (a ++ b) = all_chars p a && all_chars p b.
Proof.
  induction a as [|c a IH]; simpl; [reflexivity|]. now rewrite IH, andb_assoc.
Qed.

Lemma all_chars_substring (p : ascii -> bool) (s : string) :
  forall n, all_chars p s = true -> all_chars p (substring 0 n s) = true.
Proof.
  induction s as [|c s IH]; intros [|n] H; simpl in *; try reflexivity.
  apply andb_true_iff in H. destruct H as [Hc Hs]. now rewrite Hc, IH.
Qed.

Lemma all_chars_drop_last (p : ascii -> bool) (s : string) :
  all_chars p s = true -> all_chars p (drop_last s) = true.
Proof. intros H. unfold drop_last, slice. now apply all_chars_substring. Qed.

(** The buffer and the completed lines hold plain characters only, when
    they did before. *)
Lemma assemble_plain_invariant (s : string) :
  forall cur lines,
    all_chars plain_char cur = true ->
    Forall (fun l => all_chars plain_char l = true) lines ->
    all_chars plain_char (fst (assemble s cur lines)) = true
    /\ Forall (fun l => all_chars plain_char l = true) (snd (assemble s cur lines)).
Proof.
  assert (H : forall n s, String.length s <= n -> forall cur lines,
               all_chars plain_char cur = true ->
               Forall (fun l => all_chars plain_char l = true) lines ->
               all_chars plain_char (fst (assemble s cur lines)) = true
               /\ Forall (fun l => all_chars plain_char l = true)
                    (snd (assemble s cur lines))).
  { clear s. induction n as [|n IH]; intros s Hn cur lines Hcur Hlines.
    - destruct s; [now split | simpl in Hn; lia].
    - destruct s as [|c s]; [now split|].
      simpl in Hn. cbn [assemble].
      assert (Hsnoc : Forall (fun l => all_chars plain_char l = true)
                        (list_append lines cur)).
      { unfold list_append. apply Forall_app. split; [exact Hlines | now constructor]. }
      destruct (Ascii.eqb c CR) eqn:Ecr.
      + destruct s as [|d s']; [now split|].
        destruct (Ascii.eqb d LF);
          [apply IH; [simpl in Hn; lia | reflexivity | exact Hsnoc]
          | apply IH; [lia | reflexivity | exact Hlines]].
      + destruct (Ascii.eqb c LF) eqn:Elf;
          [apply IH; [lia | reflexivity | exact Hsnoc]|].
        destruct (Ascii.eqb c BS) eqn:Ebs.
        * apply IH; [lia | | exact Hlines].
          destruct (negb (len cur =? 0)%nat); [now apply all_chars_drop_last | exact Hcur].
        * apply IH; [lia | | exact Hlines].
          rewrite all_chars_app, Hcur. cbn [all_chars andb]. unfold plain_char.
          now rewrite Ecr, Elf, Ebs. }
  intros cur lines. now apply (H (String.length s)).
Qed.

(** X15: from a buffer without carriage return, line feed and backspace
    (the buffer of a fresh processor is one), any sequence of chunks
    leaves such a buffer, and no completed line holds one of the three
    characters. *)
Theorem no_control_characters_kept (chunks : list string) :
  forall self,
    all_chars plain_char (current_line self) = true ->
    exists self' lines,
      feed chunks self = Ret (self', lines)
      /\ all_chars plain_char (current_line self') = true
      /\ Forall (fun l => all_chars plain_char l = true) lines.
Proof.
  induction chunks as [|text chunks IH]; intros self Hself.
  - exists self, []. repeat split; [exact Hself | constructor].
  - cbn [feed]. rewrite process_lines_assemble. cbn [Py.bind fst snd].
    destruct (assemble_plain_invariant text (current_line self) [] Hself (Forall_nil _))
      as [Hcur Hlines].
    destruct (IH {| current_line := fst (assemble text (current_line self) []) |} Hcur)
      as (self' & lines & -> & Hcur' & Hlines').
    cbn [Py.bind fst snd]. eexists _, _. split; [reflexivity|].
    split; [exact Hcur'|]. apply Forall_app. now split.
Qed.

Lemma no_control_characters_kept_witness :
  exists self' lines,
    feed ["a" ++ String CR "b" ++ String LF "c"; String BS "d"] OutputProcessor_init
    = Ret (self', lines)
    /\ all_chars plain_char (current_line self') = true
    /\ Forall (fun l => all_chars plain_char l = true) lines.
Proof. apply no_control_characters_kept. reflexivity. Defined.

Lemma assemble_plain (t : string) :
  forall cur lines,
    all_chars plain_char t = true -> assemble t cur lines = (cur ++ t, lines).
Proof.
  induction t as [|c t IH]; intros cur lines H; simpl in *.
  - now rewrite str_app_nil_r.
  - apply andb_true_iff in H. destruct H as [Hc Ht]. unfold plain_char in Hc.
    apply andb_true_iff in Hc. destruct Hc as [Hc Hbs].
    apply andb_true_iff in Hc. destruct Hc as [Hcr Hlf].
    apply negb_true_iff in Hcr, Hlf, Hbs. rewrite Hcr, Hlf, Hbs.
    rewrite (IH _ _ Ht), str_app_assoc. reflexivity.
Qed.

Lemma drop_last_snoc (s : string) (c : ascii) : drop_last (s ++ String c "") = s.
Proof.
  unfold drop_last, slice, len. rewrite str_app_length. cbn [String.length].
  replace (String.length s + 1 - 1 - 0) with (String.length s) by lia.
  apply substring_app_left.
Qed.

Lemma string_snoc (t : string) (n : nat) :
  String.length t = S n ->
  exists t' c, t = t' ++ String c "" /\ String.length t' = n.
Proof.
  revert n. induction t as [|d t IH]; intros n H; [discriminate|].
  simpl in H. injection H as H. destruct t as [|e t].
  - exists "", d. simpl in *. now subst.
  - destruct n as [|n]; [discriminate|].
    destruct (IH n H) as (t' & c & E & Hl). exists (String d t'), c.
    rewrite E. simpl. split; [reflexivity | now rewrite Hl].
Qed.

Lemma assemble_backspaces (n : nat) :
  forall cur t lines,
    String.length t = n -> assemble (backspaces n) (cur ++ t) lines = (cur, lines).
Proof.
  induction n as [|n IH]; intros cur t lines Hl.
  - destruct t; [|discriminate]. simpl. now rewrite str_app_nil_r.
  - destruct (string_snoc t n Hl) as (t' & c & -> & Hl').
    cbn [backspaces assemble].
    eval_test (Ascii.eqb BS CR). eval_test (Ascii.eqb BS LF).
    eval_test (Ascii.eqb BS BS). cbv iota.
    rewrite <- str_app_assoc.
    assert (Hne : negb (len ((cur ++ t') ++ String c "") =? 0)%nat = true).
    { unfold len. rewrite str_app_length. cbn [String.length].
      replace (String.length (cur ++ t') + 1) with (S (String.length (cur ++ t'))) by lia.
      reflexivity. }
    rewrite Hne, drop_last_snoc. now apply IH.
Qed.

Lemma starts_with_LF_backspaces (n : nat) : starts_with_LF (backspaces n) = false.
Proof. destruct n; reflexivity. Qed.

(** X16: plain text followed by as many backspaces as it has characters
    leaves the processor as it was and returns the empty string. *)
Theorem typed_then_erased (t : string) (self : OutputProcessor) :
  all_chars plain_char t = true ->
  process (t ++ backspaces (String.length t)) self = Ret ("", self).
Proof.
  intros Ht. unfold process. rewrite process_lines_assemble. cbn [Py.bind fst snd].
  rewrite assemble_app by (rewrite starts_with_LF_backspaces; apply andb_false_r).
  rewrite (assemble_plain t _ _ Ht). cbn [fst snd].
  rewrite (assemble_backspaces _ _ t [] eq_refl). cbn [fst snd List.length Nat.eqb negb].
  now destruct self.
Qed.

Lemma typed_then_erased_witness :
  process ("s[x]" ++ backspaces (String.length "s[x]")) {| current_line := "50%" |}
  = Ret ("", {| current_line := "50%" |}).
Proof. apply typed_then_erased. reflexivity. Defined.

Lemma ends_with_CR_plain (t : string) :
  all_chars plain_char t = true -> ends_with_CR t = false.
Proof.
  induction t as [|c t IH]; [reflexivity|]. cbn [all_chars ends_with_CR].
  intros H. apply andb_true_iff in H. destruct H as [Hc Ht].
  destruct t as [|d t]; [|now apply IH].
  unfold plain_char in Hc. destruct (Ascii.eqb c CR); [discriminate | reflexivity].
Qed.

(** X17: a chunk made of plain text and a line feed, or of plain text, a
    carriage return and a line feed, completes one line, the buffer
    followed by the text: [process] returns its conversion and a line
    feed, and leaves the buffer empty. *)
Theorem plain_line_emitted (cur line : string) :
  all_chars plain_char line = true ->
  exists conv,
    ansi_to_rich (cur ++ line) = Ret conv
    /\ process (line ++ String LF "") {| current_line := cur |}
       = Ret (conv ++ String LF "", {| current_line := "" |})
    /\ process (line ++ String CR (String LF "")) {| current_line := cur |}
       = Ret (conv ++ String LF "", {| current_line := "" |}).
Proof.
  intros Hl. destruct (ansi_to_rich_total (cur ++ line)) as [conv Hc].
  exists conv. split; [exact Hc|].
  split; unfold process; rewrite process_lines_assemble; cbn [Py.bind fst snd current_line].
  - rewrite assemble_app by (rewrite (ends_with_CR_plain _ Hl); reflexivity).
    rewrite (assemble_plain line _ _ Hl).
    cbn [fst snd assemble list_append app List.length Nat.eqb negb comprehension].
    eval_test (Ascii.eqb LF CR). eval_test (Ascii.eqb LF LF). cbv iota.
    cbn [fst snd assemble list_append app List.length Nat.eqb negb comprehension].
    rewrite Hc. reflexivity.
  - rewrite assemble_app by (rewrite (ends_with_CR_plain _ Hl); reflexivity).
    rewrite (assemble_plain line _ _ Hl).
    cbn [fst snd assemble list_append app List.length Nat.eqb negb comprehension].
    eval_test (Ascii.eqb CR CR). eval_test (Ascii.eqb LF LF). cbv iota.
    cbn [fst snd assemble list_append app List.length Nat.eqb negb comprehension].
    rewrite Hc. reflexivity.
Qed.

Lemma plain_line_emitted_witness :
  exists conv,
    ansi_to_rich ("ab" ++ "c[d]") = Ret conv
    /\ process ("c[d]" ++ String LF "") {| current_line := "ab" |}
       = Ret (conv ++ String LF "", {| current_line := "" |})
    /\ process ("c[d]" ++ String CR (String LF "")) {| current_line := "ab" |}
       = Ret (conv ++ String LF "", {| current_line := "" |}).
Proof. apply plain_line_emitted. reflexivity. Defined.

Lemma count_char_has_char (c : ascii) (s : string) :
  has_char c s = false -> count_char c s = 0.
Proof.
  induction s as [|d s IH]; simpl; [reflexivity|].
  intros H. apply orb_false_iff in H. destruct H as [Hd Hs]. now rewrite Hd, IH.
Qed.

(** X18: a carriage return that no line feed follows discards the buffer
    and everything the chunk holds in front of it since the last line
    feed: when the text in front of it has no line feed, [process] does
    what it does on the rest of the chunk with an empty buffer. *)
Theorem bare_carriage_return_discards (junk rest : string) (self : OutputProcessor) :
  has_char LF junk = false ->
  starts_with_LF rest = false ->
  process (junk ++ String CR rest) self = process rest {| current_line := "" |}.
Proof.
  intros Hj Hr. unfold process. rewrite !process_lines_assemble. cbn [current_line].
  change (junk ++ String CR rest) with (junk ++ (String CR "" ++ rest)).
  rewrite <- str_app_assoc.
  rewrite assemble_app by (rewrite Hr; apply andb_false_r).
  rewrite (assemble_app (String CR "") junk) by apply andb_false_r.
  pose proof (assemble_count junk (current_line self) []) as Hc.
  rewrite (count_char_has_char _ _ Hj) in Hc. cbn [List.length Nat.add] in Hc.
  destruct (snd (assemble junk (current_line self) [])) as [|l ls]; [|discriminate Hc].
  cbn [assemble fst snd]. eval_test (Ascii.eqb CR CR). cbv iota.
  reflexivity.
Qed.

Lemma bare_carriage_return_discards_witness :
  process (("10%" ++ String CR "20%") ++ String CR ("done" ++ String LF ""))
    {| current_line := "0%" |}
  = process ("done" ++ String LF "") {| current_line := "" |}.
Proof. apply bare_carriage_return_discards; reflexivity. Defined.

Lemma assemble_step (c : ascii) (s' cur : string) (lines : list string) :
  assemble (String c s') cur lines
  = if Ascii.eqb c CR then
      match s' with
      | String d s'' =>
          if Ascii.eqb d LF then assemble s'' "" (list_append lines cur)
          else assemble s' "" lines
      | EmptyString => assemble s' "" lines
      end
    else if Ascii.eqb c LF then assemble s' "" (list_append lines cur)
    else if Ascii.eqb c BS then
      assemble s' (if negb (len cur =? 0)%nat then drop_last cur else cur) lines
    else assemble s' (cur ++ String c "") lines.
Proof. reflexivity. Qed.

(** A chunk that ends in a carriage return leaves the buffer empty. *)
Lemma assemble_ends_CR (s : string) :
  forall cur lines, ends_with_CR s = true -> fst (assemble s cur lines) = "".
Proof.
  assert (H : forall n s, String.length s <= n -> forall cur lines,
               ends_with_CR s = true -> fst (assemble s cur lines) = "").
  { clear s. induction n as [|n IH]; intros s Hn cur lines He.
    - destruct s; [discriminate | simpl in Hn; lia].
    - destruct s as [|c s]; [discriminate|]. simpl in Hn.
      destruct s as [|d s'].
      + cbn [ends_with_CR] in He. cbn [assemble]. rewrite He. reflexivity.
      + change (ends_with_CR (String c (String d s')))
          with (ends_with_CR (String d s')) in He.
        rewrite assemble_step.
        destruct (Ascii.eqb c CR).
        * destruct (Ascii.eqb d LF) eqn:Ed; [|apply IH; [lia | exact He]].
          apply IH; [simpl in Hn; lia|].
          destruct s' as [|e s'']; [|exact He].
          cbn [ends_with_CR] in He. apply Ascii.eqb_eq in Ed, He.
          rewrite Ed in He. discriminate He.
        * destruct (Ascii.eqb c LF); [apply IH; [lia | exact He]|].
          destruct (Ascii.eqb c BS); apply IH; try lia; exact He. }
  intros cur lines. now apply (H (String.length s)).
Qed.

Lemma comprehension_snoc {A B : Type} (f : A -> res B) (l : list A) (x : A) :
  comprehension f (l ++ [x])%list
  = (ys <- comprehension f l ;; y <- f x ;; Ret (ys ++ [y])%list).
Proof.
  induction l as [|a l IH]; cbn [comprehension app].
  - case_res (f x) as y.
  - case_res (f a) as b. rewrite IH.
    case_res (comprehension f l) as ys. case_res (f x) as y.
Qed.

Lemma comprehension_length {A B : Type} (f : A -> res B) (l : list A) (ys : list B) :
  comprehension f l = Ret ys -> List.length ys = List.length l.
Proof.
  revert ys. induction l as [|a l IH]; intros ys; cbn [comprehension].
  - intros [= <-]. reflexivity.
  - destruct (f a) as [b| |]; cbn [Py.bind]; try discriminate.
    destruct (comprehension f l) as [zs| |]; cbn [Py.bind]; try discriminate.
    intros [= <-]. simpl. now rewrite (IH zs eq_refl).
Qed.

Lemma join_snoc (sep : string) (l : list string) (x : string) :
  l <> [] -> join sep (l ++ [x])%list = join sep l ++ sep ++ x.
Proof.
  induction l as [|a l IH]; [congruence|]. intros _.
  destruct l as [|b l]; [reflexivity|].
  change (join sep ((a :: b :: l) ++ [x])%list)
    with (a ++ sep ++ join sep ((b :: l) ++ [x])%list).
  rewrite IH by discriminate.
  change (join sep (a :: b :: l)) with (a ++ sep ++ join sep (b :: l)).
  now rewrite !str_app_assoc.
Qed.

(** X19: [flush] acts as a last line feed: when [process] has left a
    buffer that is not empty, what it returned followed by what [flush]
    returns is what [process] returns on the same chunk with one line
    feed more, and both ways end in the same state. *)
Theorem flush_is_final_line_feed (text : string) (self self1 self2 : OutputProcessor)
    (out1 out2 : string) :
  process text self = Ret (out1, self1) ->
  current_line self1 <> "" ->
  flush self1 = Ret (out2, self2) ->
  process (text ++ String LF "") self = Ret (out1 ++ out2, self2).
Proof.
  unfold process, flush. rewrite !process_lines_assemble. cbn [Py.bind fst snd].
  set (cur1 := fst (assemble text (current_line self) [])).
  set (lines1 := snd (assemble text (current_line self) [])).
  intros Hp Hne Hf.
  assert (Hself1 : self1 = {| current_line := cur1 |}).
  { destruct (negb (List.length lines1 =? 0)%nat).
    - destruct (comprehension ansi_to_rich lines1); cbn [Py.bind] in Hp;
        try discriminate. now injection Hp.
    - now injection Hp. }
  subst self1. cbn [current_line] in *.
  assert (Hcr : ends_with_CR text = false).
  { destruct (ends_with_CR text) eqn:E; [|reflexivity].
    exfalso. apply Hne. unfold cur1. now apply assemble_ends_CR. }
  rewrite assemble_app by (rewrite Hcr; reflexivity).
  fold cur1 lines1. cbn [assemble].
  eval_test (Ascii.eqb LF CR). eval_test (Ascii.eqb LF LF). cbv iota.
  cbn [fst snd]. unfold list_append.
  assert (Hlen : negb (List.length (lines1 ++ [cur1]) =? 0)%nat = true).
  { rewrite length_app. cbn [List.length].
    replace (List.length lines1 + 1) with (S (List.length lines1)) by lia. reflexivity. }
  rewrite Hlen, comprehension_snoc.
  assert (Hcur : negb (len cur1 =? 0)%nat = true).
  { destruct cur1; [congruence | reflexivity]. }
  rewrite Hcur in Hf.
  destruct (ansi_to_rich cur1) as [conv| |]; cbn [Py.bind] in Hf; try discriminate.
  injection Hf as <- <-.
  destruct lines1 as [|l ls] eqn:El.
  - cbn [List.length Nat.eqb negb] in Hp. injection Hp as <-.
    cbn [comprehension Py.bind app join String.append]. reflexivity.
  - cbn [List.length Nat.eqb negb] in Hp.
    destruct (comprehension ansi_to_rich (l :: ls)) as [ys| |] eqn:Ey;
      cbn [Py.bind] in Hp; try discriminate.
    injection Hp as <-. cbn [Py.bind].
    rewrite join_snoc.
    + now rewrite !str_app_assoc.
    + apply comprehension_length in Ey. destruct ys; [discriminate | discriminate].
Qed.

Lemma flush_is_final_line_feed_witness :
  process (("a" ++ String LF "b[") ++ String LF "") OutputProcessor_init
  = Ret (("a" ++ String LF "") ++ ("b\[" ++ String LF ""), {| current_line := "" |}).
Proof.
  apply (flush_is_final_line_feed ("a" ++ String LF "b[") OutputProcessor_init
           {| current_line := "b[" |});
    [reflexivity | discriminate | reflexivity].
Defined.

(** ** Compound directives in front of other parameters *)

(** Fuel beyond the number of slots left changes nothing. *)
Lemma sgr_loop_fuel (parts : list string) (fuel : nat) :
  forall fuel' i tags,
    List.length parts - i <= fuel -> List.length parts - i <= fuel' ->
    sgr_loop fuel parts i tags = sgr_loop fuel' parts i tags.
Proof.
  induction fuel as [|fuel IH]; intros fuel' i tags Hf Hf'.
  - destruct fuel'; cbn [sgr_loop];
      destruct (Nat.ltb_spec i (List.length parts)); try reflexivity; lia.
  - destruct fuel' as [|fuel']; cbn [sgr_loop];
      destruct (Nat.ltb_spec i (List.length parts)) as [Hlt|]; try reflexivity; try lia.
    destruct (sgr_body_total parts i tags Hlt) as (i' & tags' & -> & Hi).
    cbn [Py.bind fst snd]. apply IH; lia.
Qed.

(** X20: a well-formed indexed-color directive in front of further
    parameters is translated on its own: the translation of
    lead;5;s;rest, where [s] parses as [n], is the tag [[color(n)]]
    (with [on ] for the lead 48) followed by the translation of rest. *)
Theorem leading_color256_translates_alone (lead on s rest : string) (n : Z) :
  (lead = "38" /\ on = "") \/ (lead = "48" /\ on = "on ") ->
  has_char ";" s = false -> int s = Ret n -> rest <> "" ->
  exists out,
    _parse_sgr rest = Ret out
    /\ _parse_sgr (lead ++ ";5;" ++ s ++ ";" ++ rest)
       = Ret ("[" ++ on ++ "color(" ++ str n ++ ")]" ++ out).
Proof.
  intros Hlead Hs Hn Hrest.
  destruct (parse_sgr_total rest) as [out Hout]. exists out. split; [exact Hout|].
  rewrite (parse_sgr_loop rest Hrest) in Hout.
  assert (Hsplit : split ";" (lead ++ ";5;" ++ s ++ ";" ++ rest)
                   = lead :: "5" :: s :: split ";" rest).
  { change (lead ++ ";5;" ++ s ++ ";" ++ rest)
      with (lead ++ String ";" ("5" ++ String ";" (s ++ String ";" rest))).
    rewrite split_cons by (destruct Hlead as [[-> _] | [-> _]]; reflexivity).
    rewrite split_cons by reflexivity. now rewrite split_cons by exact Hs. }
  rewrite parse_sgr_loop.
  2:{ destruct Hlead as [[-> _] | [-> _]]; discriminate. }
  rewrite Hsplit. cbn [List.length].
  set (parts := split ";" rest) in *.
  set (tag := "[" ++ on ++ "color(" ++ str n ++ ")]").
  rewrite (sgr_loop_step _ _ 0 [] 3 [tag]).
  - rewrite !sgr_loop_shift.
    rewrite (sgr_loop_fuel parts _ (List.length parts)) by lia.
    change [tag] with ([tag] ++ [])%list. rewrite sgr_loop_acc.
    destruct (sgr_loop (List.length parts) parts 0 []) as [tags| |];
      cbn [Py.bind] in *; try discriminate.
    injection Hout as <-. rewrite join_app. cbn [join]. unfold tag.
    now rewrite !str_app_assoc.
  - cbn [List.length]. lia.
  - unfold sgr_body. cbn [lgetitem nth_error Py.bind].
    destruct Hlead as [[-> ->] | [-> ->]].
    + rewrite (color256_block_hit ("38" :: "5" :: s :: parts) 0 [] "38" "" s n
                 eq_refl eq_refl Hn).
      reflexivity.
    + rewrite color256_block_other_lead by discriminate. cbn [Py.bind].
      rewrite (color256_block_hit ("48" :: "5" :: s :: parts) 0 [] "48" "on " s n
                 eq_refl eq_refl Hn).
      reflexivity.
Qed.

Lemma leading_color256_translates_alone_witness :
  exists out,
    _parse_sgr "1;4" = Ret out
    /\ _parse_sgr ("48" ++ ";5;" ++ "007" ++ ";" ++ "1;4")
       = Ret ("[" ++ "on " ++ "color(" ++ str 7 ++ ")]" ++ out).
Proof.
  apply leading_color256_translates_alone;
    [right; split; reflexivity | reflexivity | reflexivity | discriminate].
Defined.

(** ** Line feeds in the output of [process] *)

Lemma string_of_uint_no_LF (d : Decimal.uint) :
  has_char LF (NilEmpty.string_of_uint d) = false.
Proof. induction d; simpl; try reflexivity; exact IHd. Qed.

Lemma str_no_LF (n : Z) : has_char LF (str n) = false.
Proof.
  unfold str, NilZero.string_of_int, NilZero.string_of_uint.
  destruct (Z.to_int n) as [d | d]; destruct d; try reflexivity;
    cbn [has_char]; rewrite ?string_of_uint_no_LF; try reflexivity;
    apply (string_of_uint_no_LF (_ d)).
Qed.

Lemma table_tags_no_LF (code tag : string) :
  dict_get ANSI_TO_RICH code = Some tag -> has_char LF tag = false.
Proof.
  assert (H : forall d : list (string * string),
             forallb (fun kv => negb (has_char LF (snd kv))) d = true ->
             dict_get d code = Some tag -> has_char LF tag = false).
  { induction d as [|[k v] d IH]; simpl; [discriminate|].
    intros Hd. apply andb_true_iff in Hd. destruct Hd as [Hv Hd].
    destruct (String.eqb k code); [|now apply IH].
    intros [= <-]. now apply negb_true_iff in Hv. }
  apply H. vm_compute. reflexivity.
Qed.

Lemma no_LF_tags_append (tags : list string) (tag : string) :
  no_LF_tags tags -> has_char LF tag = false -> no_LF_tags (list_append tags tag).
Proof.
  intros Ht Hg. unfold no_LF_tags, list_append. apply Forall_app.
  split; [exact Ht | now constructor].
Qed.

(** A string put together from literals, [on], and printed integers
    holds no line feed. *)
Ltac no_LF_string :=
  repeat (progress (cbn [String.append has_char];
                    rewrite ?has_char_app, ?str_no_LF));
  repeat match goal with H : has_char LF _ = false |- _ => rewrite H end;
  reflexivity.

Lemma color256_block_no_LF lead on parts i param tags st :
  has_char LF on = false -> no_LF_tags tags ->
  color256_block lead on parts i param tags = Ret (Some st) -> no_LF_tags (snd st).
Proof.
  intros Hon Ht. unfold color256_block, and_then.
  destruct (String.eqb param lead); [|discriminate].
  destruct (i + 2 <? List.length parts)%nat; [|discriminate].
  destruct (lgetitem parts (i + 1)) as [p1|[]|]; cbn [Py.bind]; try discriminate.
  destruct (String.eqb p1 "5"); [|discriminate].
  destruct (lgetitem parts (i + 2)) as [p2|[]|]; cbn [Py.bind try_except_ValueError];
    try discriminate.
  destruct (int p2) as [n|[]|]; cbn [Py.bind try_except_ValueError]; try discriminate.
  intros [= <-]. cbn [snd]. apply no_LF_tags_append; [exact Ht|].
  no_LF_string.
Qed.

Lemma rgb_block_no_LF lead on parts i param tags st :
  has_char LF on = false -> no_LF_tags tags ->
  rgb_block lead on parts i param tags = Ret (Some st) -> no_LF_tags (snd st).
Proof.
  intros Hon Ht. unfold rgb_block, and_then.
  destruct (String.eqb param lead); [|discriminate].
  destruct (i + 4 <? List.length parts)%nat; [|discriminate].
  destruct (lgetitem parts (i + 1)) as [p1|[]|]; cbn [Py.bind]; try discriminate.
  destruct (String.eqb p1 "2"); [|discriminate].
  destruct (lgetitem parts (i + 2)) as [p2|[]|]; cbn [Py.bind try_except_ValueError];
    try discriminate.
  destruct (int p2) as [r|[]|]; cbn [Py.bind try_except_ValueError]; try discriminate.
  destruct (lgetitem parts (i + 3)) as [p3|[]|]; cbn [Py.bind try_except_ValueError];
    try discriminate.
  destruct (int p3) as [g|[]|]; cbn [Py.bind try_except_ValueError]; try discriminate.
  destruct (lgetitem parts (i + 4)) as [p4|[]|]; cbn [Py.bind try_except_ValueError];
    try discriminate.
  destruct (int p4) as [b|[]|]; cbn [Py.bind try_except_ValueError]; try discriminate.
  intros [= <-]. cbn [snd]. apply no_LF_tags_append; [exact Ht|].
  no_LF_string.
Qed.

Lemma basic_block_no_LF i param tags st :
  no_LF_tags tags -> basic_block i param tags = Ret st -> no_LF_tags (snd st).
Proof.
  intros Ht. unfold basic_block, dict_in, dict_getitem.
  destruct (dict_get ANSI_TO_RICH param) as [tag|] eqn:E; cbn [Py.bind].
  - pose proof (table_tags_no_LF _ _ E) as Hg.
    assert (Hb : has_char LF ("[" ++ tag ++ "]") = false).
    { cbn [String.append has_char]. rewrite has_char_app, Hg. reflexivity. }
    destruct (String.eqb tag "/");
      [intros [= <-]; cbn [snd]; now apply no_LF_tags_append|].
    destruct (startswith "/" tag); intros [= <-]; cbn [snd];
      now apply no_LF_tags_append.
  - intros [= <-]. exact Ht.
Qed.

Lemma sgr_body_no_LF parts i tags st :
  no_LF_tags tags -> sgr_body parts i tags = Ret st -> no_LF_tags (snd st).
Proof.
  intros Ht. unfold sgr_body.
  destruct (lgetitem parts i) as [param|[]|]; cbn [Py.bind]; try discriminate.
  destruct (color256_block "38" "" parts i param tags) as [[st1|]|[]|] eqn:E1;
    cbn [Py.bind]; try discriminate;
    [intros [= <-]; now apply (color256_block_no_LF _ "" _ _ _ _ _ eq_refl Ht E1)|].
  destruct (color256_block "48" "on " parts i param tags) as [[st2|]|[]|] eqn:E2;
    cbn [Py.bind]; try discriminate;
    [intros [= <-]; now apply (color256_block_no_LF _ "on " _ _ _ _ _ eq_refl Ht E2)|].
  destruct (rgb_block "38" "" parts i param tags) as [[st3|]|[]|] eqn:E3;
    cbn [Py.bind]; try discriminate;
    [intros [= <-]; now apply (rgb_block_no_LF _ "" _ _ _ _ _ eq_refl Ht E3)|].
  destruct (rgb_block "48" "on " parts i param tags) as [[st4|]|[]|] eqn:E4;
    cbn [Py.bind]; try discriminate;
    [intros [= <-]; now apply (rgb_block_no_LF _ "on " _ _ _ _ _ eq_refl Ht E4)|].
  now apply basic_block_no_LF.
Qed.

Lemma sgr_loop_no_LF parts fuel :
  forall i tags out,
    no_LF_tags tags -> sgr_loop fuel parts i tags = Ret out -> no_LF_tags out.
Proof.
  induction fuel as [|fuel IH]; intros i tags out Ht; cbn [sgr_loop];
    destruct (i <? List.length parts)%nat; try discriminate;
    try (intros [= <-]; exact Ht).
  destruct (sgr_body parts i tags) as [st|[]|] eqn:E; cbn [Py.bind]; try discriminate.
  apply (IH _ _ _ (sgr_body_no_LF _ _ _ _ Ht E)).
Qed.

Lemma join_no_LF (l : list string) : no_LF_tags l -> has_char LF (join "" l) = false.
Proof.
  induction 1 as [|x l Hx Hl IH]; [reflexivity|].
  rewrite join_cons, has_char_app, Hx, IH. reflexivity.
Qed.

Lemma parse_sgr_no_LF (params out : string) :
  _parse_sgr params = Ret out -> has_char LF out = false.
Proof.
  unfold _parse_sgr.
  destruct ((len params =? 0)%nat || String.eqb params "0"); [intros [= <-]; reflexivity|].
  destruct (sgr_loop _ _ 0 []) as [tags|[]|] eqn:E; cbn [Py.bind]; try discriminate.
  intros [= <-]. apply join_no_LF. apply (sgr_loop_no_LF _ _ _ _ _ (Forall_nil _) E).
Qed.

Lemma seq_markup_no_LF (seq mk : string) :
  seq_markup seq = Ret mk -> has_char LF mk = false.
Proof.
  unfold seq_markup.
  destruct (fullmatch ANSI_CSI_PATTERN seq) as [cm|]; cbn [Py.bind];
    [|intros [= <-]; reflexivity].
  destruct (group cm 2) as [cmd|[]|]; cbn [Py.bind]; try discriminate.
  destruct (String.eqb cmd "m"); [|intros [= <-]; reflexivity].
  destruct (group cm 1) as [params|[]|]; cbn [Py.bind]; try discriminate.
  apply parse_sgr_no_LF.
Qed.

Lemma escape_no_LF (t : string) :
  has_char LF t = false -> has_char LF (_escape_rich_markup t) = false.
Proof.
  rewrite escape_is_escape_brackets. induction t as [|c t IH]; [reflexivity|].
  cbn [has_char escape_brackets]. intros H. apply orb_false_iff in H.
  destruct H as [Hc Ht].
  destruct (Ascii.eqb c "["); [cbn [has_char]; now rewrite IH|].
  destruct (Ascii.eqb c "]"); [cbn [has_char]; now rewrite IH|].
  cbn [has_char]. now rewrite Hc, IH.
Qed.

Lemma convert_from_no_LF (s : string) :
  forall skip out,
    has_char LF s = false -> convert_from skip s = Ret out -> has_char LF out = false.
Proof.
  induction s as [|c s IH]; intros skip out H; [intros [= <-]; reflexivity|].
  cbn [has_char] in H. apply orb_false_iff in H. destruct H as [Hc Hs].
  cbn [convert_from]. destruct skip as [|skip]; [|now apply IH].
  destruct (match_prefix ANSI_ALL_PATTERN (String c s)) as [[n caps]|].
  - destruct (seq_markup (substring 0 n (String c s))) as [mk|[]|] eqn:Em;
      cbn [Py.bind]; try discriminate.
    destruct (convert_from (n - 1) s) as [rest|[]|] eqn:Er; cbn [Py.bind];
      try discriminate.
    intros [= <-]. rewrite has_char_app, (seq_markup_no_LF _ _ Em), (IH _ _ Hs Er).
    reflexivity.
  - destruct (convert_from 0 s) as [rest|[]|] eqn:Er; cbn [Py.bind]; try discriminate.
    intros [= <-]. rewrite has_char_app, (IH _ _ Hs Er), escape_no_LF; [reflexivity|].
    cbn [has_char]. now rewrite Hc.
Qed.

Lemma ansi_to_rich_no_LF (text out : string) :
  has_char LF text = false -> ansi_to_rich text = Ret out -> has_char LF out = false.
Proof. rewrite ansi_to_rich_convert. apply convert_from_no_LF. Qed.

Lemma plain_no_LF (l : string) : all_chars plain_char l = true -> has_char LF l = false.
Proof.
  induction l as [|c l IH]; [reflexivity|]. cbn [all_chars has_char].
  intros H. apply andb_true_iff in H. destruct H as [Hc Hl]. rewrite (IH Hl).
  unfold plain_char in Hc. destruct (Ascii.eqb c LF); [|reflexivity].
  rewrite andb_false_r in Hc. discriminate Hc.
Qed.

Lemma comprehension_no_LF (lines conv : list string) :
  no_LF_tags lines -> comprehension ansi_to_rich lines = Ret conv -> no_LF_tags conv.
Proof.
  intros Hl. revert conv. induction Hl as [|x l Hx Hl IH]; intros conv;
    cbn [comprehension]; [intros [= <-]; constructor|].
  destruct (ansi_to_rich x) as [y|[]|] eqn:Ey; cbn [Py.bind]; try discriminate.
  destruct (comprehension ansi_to_rich l) as [ys|[]|]; cbn [Py.bind]; try discriminate.
  intros [= <-]. constructor; [now apply (ansi_to_rich_no_LF x) | now apply IH].
Qed.

Lemma count_char_app (c : ascii) (a b : string) :
  count_char c (a ++ b) = count_char c a + count_char c b.
Proof.
  induction a as [|d a IH]; simpl; [reflexivity|]. rewrite IH. lia.
Qed.

Lemma count_join_LF (l : list string) :
  no_LF_tags l -> l <> [] ->
  count_char LF (join (String LF "") l ++ String LF "") = List.length l.
Proof.
  induction 1 as [|x l Hx Hl IH]; [congruence|]. intros _.
  destruct l as [|y l].
  - cbn [join List.length]. rewrite count_char_app, (count_char_has_char _ _ Hx).
    reflexivity.
  - change (join (String LF "") (x :: y :: l))
      with (x ++ String LF "" ++ join (String LF "") (y :: l)).
    rewrite !str_app_assoc, count_char_app, (count_char_has_char _ _ Hx).
    cbn [String.append count_char]. eval_test (Ascii.eqb LF LF). cbv iota.
    rewrite IH by discriminate. cbn [List.length]. lia.
Qed.

(** X21: from a buffer without carriage return, line feed and backspace,
    the string that [process] returns has exactly as many line feeds as
    the chunk: one per completed line, and none inside a converted line. *)
Theorem process_keeps_line_feeds (text : string) (self : OutputProcessor) :
  all_chars plain_char (current_line self) = true ->
  exists out self',
    process text self = Ret (out, self')
    /\ count_char LF out = count_char LF text.
Proof.
  intros Hself. destruct (process_total text self) as (out & self' & Hp).
  exists out, self'. split; [exact Hp|].
  unfold process in Hp. rewrite process_lines_assemble in Hp. cbn [Py.bind fst snd] in Hp.
  pose proof (assemble_count text (current_line self) []) as Hc.
  cbn [List.length Nat.add] in Hc.
  destruct (assemble_plain_invariant text (current_line self) [] Hself (Forall_nil _))
    as [_ Hlines].
  destruct (snd (assemble text (current_line self) [])) as [|l ls] eqn:El.
  - cbn [List.length Nat.eqb negb] in Hp. injection Hp as <- _. exact Hc.
  - cbn [List.length Nat.eqb negb] in Hp.
    destruct (comprehension ansi_to_rich (l :: ls)) as [conv|[]|] eqn:Ec;
      cbn [Py.bind] in Hp; try discriminate.
    injection Hp as <- _.
    rewrite count_join_LF.
    + rewrite (comprehension_length _ _ _ Ec). exact Hc.
    + apply (comprehension_no_LF (l :: ls)); [|exact Ec].
      eapply Forall_impl; [|exact Hlines]. intros a. apply plain_no_LF.
    + apply comprehension_length in Ec. destruct conv; discriminate.
Qed.

Lemma process_keeps_line_feeds_witness :
  exists out self',
    process ("a" ++ String CR (String LF (String ESC "[1mb")) ++ String LF "c")
      {| current_line := "x" |} = Ret (out, self')
    /\ count_char LF out
       = count_char LF ("a" ++ String CR (String LF (String ESC "[1mb")) ++ String LF "c").
Proof. apply process_keeps_line_feeds. reflexivity. Defined.

(** ** Compound directives in the whole translator *)

(** The loop behind a prefix of slots that it has passed. *)
Lemma sgr_loop_prefix_shift (d parts : list string) (fuel : nat) :
  forall i tags,
    sgr_loop fuel (d ++ parts)%list (List.length d + i) tags = sgr_loop fuel parts i tags.
Proof.
  induction d as [|x d IH]; intros i tags; [reflexivity|].
  cbn [List.length app Nat.add]. rewrite sgr_loop_shift. apply IH.
Qed.

(** When the body, at the head of the list, passes the slots [d] and
    leaves the one tag [tag], the loop returns [tag] followed by the tags
    of the slots behind [d]. *)
Lemma sgr_loop_head (d rest : list string) (tag : string) :
  d <> [] ->
  sgr_body (d ++ rest)%list 0 [] = Ret (List.length d, [tag]) ->
  sgr_loop (List.length (d ++ rest)%list) (d ++ rest)%list 0 []
  = (r <- sgr_loop (List.length rest) rest 0 [] ;; Ret (tag :: r)).
Proof.
  intros Hd Hbody.
  assert (Hlen : List.length (d ++ rest)%list
                 = S (List.length (d ++ rest)%list - 1)).
  { rewrite length_app. destruct d; [congruence | simpl; lia]. }
  rewrite Hlen at 1.
  rewrite (sgr_loop_step _ _ 0 [] (List.length d) [tag]); [| lia | exact Hbody].
  pose proof (sgr_loop_prefix_shift d rest (List.length (d ++ rest)%list - 1) 0 [tag])
    as Hshift.
  rewrite Nat.add_0_r in Hshift. rewrite Hshift.
  rewrite (sgr_loop_fuel rest _ (List.length rest)).
  - change [tag] with ([tag] ++ [])%list. rewrite sgr_loop_acc. reflexivity.
  - rewrite length_app. destruct d; [congruence | simpl; lia].
  - lia.
Qed.

(** C2: at any position [i] of the scan, a lead value [38] followed by
    [5] and a slot that parses as the integer [n] makes the loop body
    append exactly the tag [[color(n)]] and the loop go on 3 slots
    further; a lead value [38] followed by [2] and three slots that parse
    as [r], [g], [b] makes it append exactly [[rgb(r,g,b)]] and go on 5
    slots further; with the lead value [48] the tags are [[on color(n)]]
    and [[on rgb(r,g,b)]].  On the translator itself: [_parse_sgr] of the
    directive alone returns exactly its tag, and [_parse_sgr] of the
    directive followed by further parameters returns the tag followed by
    the translation of these parameters. *)
Theorem C2_compound_directives (parts : list string) (i : nat) (tags : list string) :
  (forall s n,
      nth_error parts i = Some "38" -> nth_error parts (i + 1) = Some "5" ->
      nth_error parts (i + 2) = Some s -> int s = Ret n ->
      sgr_body parts i tags
      = Ret (i + 3, list_append tags ("[color(" ++ str n ++ ")]"))
      /\ forall fuel,
          sgr_loop (S fuel) parts i tags
          = sgr_loop fuel parts (i + 3) (list_append tags ("[color(" ++ str n ++ ")]")))
  /\ (forall s n,
      nth_error parts i = Some "48" -> nth_error parts (i + 1) = Some "5" ->
      nth_error parts (i + 2) = Some s -> int s = Ret n ->
      sgr_body parts i tags
      = Ret (i + 3, list_append tags ("[on color(" ++ str n ++ ")]"))
      /\ forall fuel,
          sgr_loop (S fuel) parts i tags
          = sgr_loop fuel parts (i + 3)
              (list_append tags ("[on color(" ++ str n ++ ")]")))
  /\ (forall s2 s3 s4 r g b,
      nth_error parts i = Some "38" -> nth_error parts (i + 1) = Some "2" ->
      nth_error parts (i + 2) = Some s2 -> int s2 = Ret r ->
      nth_error parts (i + 3) = Some s3 -> int s3 = Ret g ->
      nth_error parts (i + 4) = Some s4 -> int s4 = Ret b ->
      sgr_body parts i tags
      = Ret (i + 5,
             list_append tags ("[rgb(" ++ str r ++ "," ++ str g ++ "," ++ str b ++ ")]"))
      /\ forall fuel,
          sgr_loop (S fuel) parts i tags
          = sgr_loop fuel parts (i + 5)
              (list_append tags
                 ("[rgb(" ++ str r ++ "," ++ str g ++ "," ++ str b ++ ")]")))
  /\ (forall s2 s3 s4 r g b,
      nth_error parts i = Some "48" -> nth_error parts (i + 1) = Some "2" ->
      nth_error parts (i + 2) = Some s2 -> int s2 = Ret r ->
      nth_error parts (i + 3) = Some s3 -> int s3 = Ret g ->
      nth_error parts (i + 4) = Some s4 -> int s4 = Ret b ->
      sgr_body parts i tags
      = Ret (i + 5,
             list_append tags
               ("[on rgb(" ++ str r ++ "," ++ str g ++ "," ++ str b ++ ")]"))
      /\ forall fuel,
          sgr_loop (S fuel) parts i tags
          = sgr_loop fuel parts (i + 5)
              (list_append tags
                 ("[on rgb(" ++ str r ++ "," ++ str g ++ "," ++ str b ++ ")]")))
  /\ (forall lead on s n,
      (lead = "38" /\ on = "") \/ (lead = "48" /\ on = "on ") ->
      has_char ";" s = false -> int s = Ret n ->
      _parse_sgr (lead ++ ";5;" ++ s) = Ret ("[" ++ on ++ "color(" ++ str n ++ ")]")
      /\ forall rest out,
          rest <> "" -> _parse_sgr rest = Ret out ->
          _parse_sgr (lead ++ ";5;" ++ s ++ ";" ++ rest)
          = Ret (("[" ++ on ++ "color(" ++ str n ++ ")]") ++ out))
  /\ (forall lead on s2 s3 s4 r g b,
      (lead = "38" /\ on = "") \/ (lead = "48" /\ on = "on ") ->
      has_char ";" s2 = false -> int s2 = Ret r ->
      has_char ";" s3 = false -> int s3 = Ret g ->
      has_char ";" s4 = false -> int s4 = Ret b ->
      _parse_sgr (lead ++ ";2;" ++ s2 ++ ";" ++ s3 ++ ";" ++ s4)
      = Ret ("[" ++ on ++ "rgb(" ++ str r ++ "," ++ str g ++ "," ++ str b ++ ")]")
      /\ forall rest out,
          rest <> "" -> _parse_sgr rest = Ret out ->
          _parse_sgr (lead ++ ";2;" ++ s2 ++ ";" ++ s3 ++ ";" ++ s4 ++ ";" ++ rest)
          = Ret (("[" ++ on ++ "rgb(" ++ str r ++ "," ++ str g ++ "," ++ str b ++ ")]")
                 ++ out)).
Proof.
  (* the loop body at a well-formed directive, for any list and position *)
  assert (B1 : forall parts i tags lead on s n,
             (lead = "38" /\ on = "") \/ (lead = "48" /\ on = "on ") ->
             nth_error parts i = Some lead -> nth_error parts (i + 1) = Some "5" ->
             nth_error parts (i + 2) = Some s -> int s = Ret n ->
             sgr_body parts i tags
             = Ret (i + 3, list_append tags ("[" ++ on ++ "color(" ++ str n ++ ")]"))).
  { clear. intros parts i tags lead on s n Hl H0 H1 H2 Hn. unfold sgr_body.
    rewrite (lgetitem_Some _ _ _ H0). cbn [Py.bind].
    destruct Hl as [[-> ->] | [-> ->]].
    - rewrite (color256_block_hit parts i tags "38" "" s n H1 H2 Hn). reflexivity.
    - rewrite color256_block_other_lead by discriminate. cbn [Py.bind].
      rewrite (color256_block_hit parts i tags "48" "on " s n H1 H2 Hn). reflexivity. }
  assert (B2 : forall parts i tags lead on s2 s3 s4 r g b,
             (lead = "38" /\ on = "") \/ (lead = "48" /\ on = "on ") ->
             nth_error parts i = Some lead -> nth_error parts (i + 1) = Some "2" ->
             nth_error parts (i + 2) = Some s2 -> int s2 = Ret r ->
             nth_error parts (i + 3) = Some s3 -> int s3 = Ret g ->
             nth_error parts (i + 4) = Some s4 -> int s4 = Ret b ->
             sgr_body parts i tags
             = Ret (i + 5,
                    list_append tags ("[" ++ on ++ "rgb(" ++ str r ++ "," ++ str g ++ ","
                                        ++ str b ++ ")]"))).
  { clear. intros parts i tags lead on s2 s3 s4 r g b Hl H0 H1 H2 Hr H3 Hg H4 Hb.
    unfold sgr_body. rewrite (lgetitem_Some _ _ _ H0). cbn [Py.bind].
    rewrite !(color256_block_other_mode parts i tags _ _ _ "2" H1) by discriminate.
    cbn [Py.bind]. destruct Hl as [[-> ->] | [-> ->]].
    - rewrite (rgb_block_hit parts i tags "38" "" s2 s3 s4 r g b H1 H2 Hr H3 Hg H4 Hb).
      reflexivity.
    - rewrite rgb_block_other_lead by discriminate. cbn [Py.bind].
      rewrite (rgb_block_hit parts i tags "48" "on " s2 s3 s4 r g b H1 H2 Hr H3 Hg H4 Hb).
      reflexivity. }
  (* from the body to the loop *)
  assert (L : forall parts i tags i' tags',
             nth_error parts i <> None -> sgr_body parts i tags = Ret (i', tags') ->
             sgr_body parts i tags = Ret (i', tags')
             /\ forall fuel, sgr_loop (S fuel) parts i tags = sgr_loop fuel parts i' tags').
  { clear. intros parts i tags i' tags' Hi Hb. split; [exact Hb|].
    intros fuel. apply sgr_loop_step; [now apply nth_error_Some | exact Hb]. }
  split; [|split; [|split; [|split; [|split]]]].
  - intros s n H0 H1 H2 Hn. apply L; [congruence|].
    exact (B1 parts i tags "38" "" s n (or_introl (conj eq_refl eq_refl)) H0 H1 H2 Hn).
  - intros s n H0 H1 H2 Hn. apply L; [congruence|].
    exact (B1 parts i tags "48" "on " s n (or_intror (conj eq_refl eq_refl)) H0 H1 H2 Hn).
  - intros s2 s3 s4 r g b H0 H1 H2 Hr H3 Hg H4 Hb. apply L; [congruence|].
    exact (B2 parts i tags "38" "" s2 s3 s4 r g b (or_introl (conj eq_refl eq_refl))
             H0 H1 H2 Hr H3 Hg H4 Hb).
  - intros s2 s3 s4 r g b H0 H1 H2 Hr H3 Hg H4 Hb. apply L; [congruence|].
    exact (B2 parts i tags "48" "on " s2 s3 s4 r g b (or_intror (conj eq_refl eq_refl))
             H0 H1 H2 Hr H3 Hg H4 Hb).
  - intros lead on s n Hl Hs Hn.
    assert (Hlead : has_char ";" lead = false /\ lead <> "").
    { destruct Hl as [[-> _] | [-> _]]; split; (reflexivity || discriminate). }
    destruct Hlead as [Hlsemi Hlne].
    set (tag := "[" ++ on ++ "color(" ++ str n ++ ")]").
    assert (Hhead : forall rest,
               sgr_loop (List.length ([lead; "5"; s] ++ rest)%list)
                 ([lead; "5"; s] ++ rest)%list 0 []
               = (r <- sgr_loop (List.length rest) rest 0 [] ;; Ret (tag :: r))).
    { intros rest. apply sgr_loop_head; [discriminate|].
      exact (B1 ([lead; "5"; s] ++ rest)%list 0 [] lead on s n Hl
               eq_refl eq_refl eq_refl Hn). }
    split.
    + rewrite parse_sgr_loop by (destruct lead; [congruence | discriminate]).
      change (lead ++ ";5;" ++ s) with (lead ++ String ";" ("5" ++ String ";" s)).
      rewrite (split_cons _ _ _ Hlsemi), split_cons by reflexivity.
      rewrite (split_no_sep _ _ Hs).
      pose proof (Hhead []) as Hh. cbn [app List.length] in Hh.
      cbn [List.length]. rewrite Hh.
      cbn [sgr_loop List.length Nat.ltb Nat.leb Py.bind join]. reflexivity.
    + intros rest out Hrest Hout.
      rewrite (parse_sgr_loop rest Hrest) in Hout.
      rewrite parse_sgr_loop by (destruct lead; [congruence | discriminate]).
      change (lead ++ ";5;" ++ s ++ ";" ++ rest)
        with (lead ++ String ";" ("5" ++ String ";" (s ++ String ";" rest))).
      rewrite (split_cons _ _ _ Hlsemi), split_cons by reflexivity.
      rewrite (split_cons _ _ _ Hs).
      pose proof (Hhead (split ";" rest)) as Hh. cbn [app List.length] in Hh.
      cbn [List.length]. rewrite Hh.
      destruct (sgr_loop (List.length (split ";" rest)) (split ";" rest) 0 [])
        as [tags0|[]|]; cbn [Py.bind] in *; try discriminate.
      injection Hout as <-. now rewrite join_cons.
  - intros lead on s2 s3 s4 r g b Hl Hs2 Hr Hs3 Hg Hs4 Hb.
    assert (Hlead : has_char ";" lead = false /\ lead <> "").
    { destruct Hl as [[-> _] | [-> _]]; split; (reflexivity || discriminate). }
    destruct Hlead as [Hlsemi Hlne].
    set (tag := "[" ++ on ++ "rgb(" ++ str r ++ "," ++ str g ++ "," ++ str b ++ ")]").
    assert (Hhead : forall rest,
               sgr_loop (List.length ([lead; "2"; s2; s3; s4] ++ rest)%list)
                 ([lead; "2"; s2; s3; s4] ++ rest)%list 0 []
               = (x <- sgr_loop (List.length rest) rest 0 [] ;; Ret (tag :: x))).
    { intros rest. apply sgr_loop_head; [discriminate|].
      exact (B2 ([lead; "2"; s2; s3; s4] ++ rest)%list 0 [] lead on s2 s3 s4 r g b Hl
               eq_refl eq_refl eq_refl Hr eq_refl Hg eq_refl Hb). }
    split.
    + rewrite parse_sgr_loop by (destruct lead; [congruence | discriminate]).
      change (lead ++ ";2;" ++ s2 ++ ";" ++ s3 ++ ";" ++ s4)
        with (lead ++ String ";" ("2" ++ String ";" (s2 ++ String ";"
                                                        (s3 ++ String ";" s4)))).
      rewrite (split_cons _ _ _ Hlsemi), split_cons by reflexivity.
      rewrite (split_cons _ _ _ Hs2), (split_cons _ _ _ Hs3), (split_no_sep _ _ Hs4).
      pose proof (Hhead []) as Hh. cbn [app List.length] in Hh.
      cbn [List.length]. rewrite Hh.
      cbn [sgr_loop List.length Nat.ltb Nat.leb Py.bind join]. reflexivity.
    + intros rest out Hrest Hout.
      rewrite (parse_sgr_loop rest Hrest) in Hout.
      rewrite parse_sgr_loop by (destruct lead; [congruence | discriminate]).
      change (lead ++ ";2;" ++ s2 ++ ";" ++ s3 ++ ";" ++ s4 ++ ";" ++ rest)
        with (lead ++ String ";" ("2" ++ String ";" (s2 ++ String ";"
                (s3 ++ String ";" (s4 ++ String ";" rest))))).
      rewrite (split_cons _ _ _ Hlsemi), split_cons by reflexivity.
      rewrite (split_cons _ _ _ Hs2), (split_cons _ _ _ Hs3), (split_cons _ _ _ Hs4).
      pose proof (Hhead (split ";" rest)) as Hh. cbn [app List.length] in Hh.
      cbn [List.length]. rewrite Hh.
      destruct (sgr_loop (List.length (split ";" rest)) (split ";" rest) 0 [])
        as [tags0|[]|]; cbn [Py.bind] in *; try discriminate.
      injection Hout as <-. now rewrite join_cons.
Qed.

Lemma C2_compound_directives_witness :
  (sgr_body ["1"; "38"; "5"; "196"; "4"] 1 ["[bold]"] = Ret (4, ["[bold]"; "[color(196)]"])
   /\ forall fuel,
       sgr_loop (S fuel) ["1"; "38"; "5"; "196"; "4"] 1 ["[bold]"]
       = sgr_loop fuel ["1"; "38"; "5"; "196"; "4"] 4 ["[bold]"; "[color(196)]"])
  /\ (sgr_body ["48"; "5"; "007"] 0 [] = Ret (3, ["[on color(7)]"])
      /\ forall fuel,
          sgr_loop (S fuel) ["48"; "5"; "007"] 0 []
          = sgr_loop fuel ["48"; "5"; "007"] 3 ["[on color(7)]"])
  /\ (sgr_body ["38"; "2"; "255"; "0"; "0"] 0 [] = Ret (5, ["[rgb(255,0,0)]"])
      /\ forall fuel,
          sgr_loop (S fuel) ["38"; "2"; "255"; "0"; "0"] 0 []
          = sgr_loop fuel ["38"; "2"; "255"; "0"; "0"] 5 ["[rgb(255,0,0)]"])
  /\ (sgr_body ["48"; "2"; "1"; "2"; "3"; "9"] 0 [] = Ret (5, ["[on rgb(1,2,3)]"])
      /\ forall fuel,
          sgr_loop (S fuel) ["48"; "2"; "1"; "2"; "3"; "9"] 0 []
          = sgr_loop fuel ["48"; "2"; "1"; "2"; "3"; "9"] 5 ["[on rgb(1,2,3)]"])
  /\ _parse_sgr "38;5;196" = Ret "[color(196)]"
  /\ _parse_sgr "48;5;007;1;4" = Ret "[on color(7)][bold][underline]"
  /\ _parse_sgr "38;2;255;0;0" = Ret "[rgb(255,0,0)]"
  /\ _parse_sgr "48;2;1;2;3;9" = Ret "[on rgb(1,2,3)][strike]".
Proof.
  split; [|split; [|split; [|split; [|split; [|split; [|split]]]]]].
  - exact (proj1 (C2_compound_directives ["1"; "38"; "5"; "196"; "4"] 1 ["[bold]"])
             "196" 196%Z eq_refl eq_refl eq_refl eq_refl).
  - exact (proj1 (proj2 (C2_compound_directives ["48"; "5"; "007"] 0 []))
             "007" 7%Z eq_refl eq_refl eq_refl eq_refl).
  - exact (proj1 (proj2 (proj2 (C2_compound_directives ["38"; "2"; "255"; "0"; "0"] 0 [])))
             "255" "0" "0" 255%Z 0%Z 0%Z
             eq_refl eq_refl eq_refl eq_refl eq_refl eq_refl eq_refl eq_refl).
  - exact (proj1 (proj2 (proj2 (proj2
             (C2_compound_directives ["48"; "2"; "1"; "2"; "3"; "9"] 0 []))))
             "1" "2" "3" 1%Z 2%Z 3%Z
             eq_refl eq_refl eq_refl eq_refl eq_refl eq_refl eq_refl eq_refl).
  - exact (proj1 (proj1 (proj2 (proj2 (proj2 (proj2 (C2_compound_directives [] 0 [])))))
                    "38" "" "196" 196%Z (or_introl (conj eq_refl eq_refl))
                    eq_refl eq_refl)).
  - refine (proj2 (proj1 (proj2 (proj2 (proj2 (proj2 (C2_compound_directives [] 0 [])))))
                     "48" "on " "007" 7%Z (or_intror (conj eq_refl eq_refl))
                     eq_refl eq_refl)
              "1;4" "[bold][underline]" _ eq_refl).
    discriminate.
  - exact (proj1 (proj2 (proj2 (proj2 (proj2 (proj2 (C2_compound_directives [] 0 [])))))
                    "38" "" "255" "0" "0" 255%Z 0%Z 0%Z
                    (or_introl (conj eq_refl eq_refl))
                    eq_refl eq_refl eq_refl eq_refl eq_refl eq_refl)).
  - refine (proj2 (proj2 (proj2 (proj2 (proj2 (proj2 (C2_compound_directives [] 0 [])))))
                     "48" "on " "1" "2" "3" 1%Z 2%Z 3%Z
                     (or_intror (conj eq_refl eq_refl))
                     eq_refl eq_refl eq_refl eq_refl eq_refl eq_refl)
              "9" "[strike]" _ eq_refl).
    discriminate.
Defined.
